(** * A shallow embedding of [banking_system.py]

    The ledger of the program: [Account], [Customer], [TransactionRecord],
    the two repositories and the three services, with the Python object
    store made explicit.

    Conventions of the embedding.
    - A [Decimal] is modelled by an integer: the count of a fixed quantum
      (a power of ten small enough for every amount in play).  Only finite
      values are modelled, and sums are exact (the precision of the decimal
      context is not reached).
    - A [str] is a [string] of characters with code points 0..255.
    - [uuid4()] and [datetime.now()] draw a value from the environment; the
      drawn value is an explicit argument of the function that draws it.
    - Python objects that are shared and mutated ([Account]) live in a heap
      and are handled through references; a method that raises leaves the
      state as it was when the exception left it. *)

From Stdlib Require Import ZArith String Ascii List Lia Sorted.
From Stdlib Require Import DecimalString DecimalN DecimalFacts.
From stdpp Require Import base gmap list strings.

(** ** Values *)

Abbreviation UUID := N (only parsing).
Abbreviation Decimal := Z (only parsing).
Abbreviation datetime := Z (only parsing).

(** The exceptions of the program: every check raises [ValueError] with a
    message, a missing dictionary key raises [KeyError].  [DanglingRef] is
    not a Python exception: it is the answer of the model when a reference
    points outside the heap, which no well-formed state allows. *)
Inductive exn :=
| ValueError (msg : string)
| KeyError (key : UUID)
| DanglingRef.

#[global] Instance exn_eq_dec : EqDecision exn.
Proof. solve_decision. Defined.

(** ** [str] methods used by the program *)

(** [c.isdigit()] for a code point below 256: the ASCII digits, and the
    superscripts two, three and one (U+00B2, U+00B3, U+00B9). *)
Definition chr_isdigit (c : ascii) : bool :=
  let n := nat_of_ascii c in
  ((48 <=? n) && (n <=? 57) || (n =? 178) || (n =? 179) || (n =? 185))%nat.

Fixpoint str_all (p : ascii -> bool) (s : string) : bool :=
  match s with
  | EmptyString => true
  | String c s' => p c && str_all p s'
  end.

(** [s.isdigit()]: at least one character, and all of them digits. *)
Definition str_isdigit (s : string) : bool :=
  match s with
  | EmptyString => false
  | _ => str_all chr_isdigit s
  end.

(** [c in s] for a one-character string [c]. *)
Fixpoint str_contains (c : ascii) (s : string) : bool :=
  match s with
  | EmptyString => false
  | String d s' => Ascii.eqb c d || str_contains c s'
  end.

(** ** Account *)

Module Account.

Record t := mk {
  customer_id : UUID;
  account_number : string;
  balance : Decimal;
  account_id : UUID
}.

Definition set_balance (b : Decimal) (self : t) : t :=
  mk (customer_id self) (account_number self) b (account_id self).

Definition post_init (self : t) : exn + unit :=
  if negb (str_isdigit (account_number self))
     || negb (String.length (account_number self) =? 10)%nat
  then inl (ValueError "Account number must be 10 digits")
  else inr tt.

(** The state of [self] after the call, or the exception raised; an
    exception leaves [self] as it was. *)
Definition deposit (self : t) (amount : Decimal) : exn + t :=
  if (amount <? 0)%Z
  then inl (ValueError "Deposit amount must be greater than 0")
  else inr (set_balance (balance self + amount)%Z self).

Definition withdraw (self : t) (amount : Decimal) : exn + t :=
  if (amount <=? 0)%Z
  then inl (ValueError "Withdraw amount must be greater than 0")
  else if (amount >? balance self)%Z
  then inl (ValueError "Insufficient balance")
  else inr (set_balance (balance self - amount)%Z self).

End Account.

(** ** Customer *)

Module Customer.

Record t := mk {
  name : string;
  email : string;
  phone_number : string;
  customer_id : UUID
}.

Definition post_init (self : t) : exn + unit :=
  if negb (str_isdigit (phone_number self))
     || negb (String.length (phone_number self) =? 12)%nat
  then inl (ValueError
    "Invalid phone number. Please input phone number starting with '63' PH code")
  else if negb (str_contains "@"%char (email self))
  then inl (ValueError "Invalid email")
  else inr tt.

(** [Customer(name=.., email=.., phone_number=..)], with [fresh] the
    value drawn by [uuid4()]. *)
Definition new (name email phone_number : string) (fresh : UUID) : exn + t :=
  let self := mk name email phone_number fresh in
  match post_init self with
  | inl e => inl e
  | inr _ => inr self
  end.

End Customer.

(** ** TransactionRecord *)

Inductive TransactionType := DEPOSIT | WITHDRAW.

#[global] Instance TransactionType_eq_dec : EqDecision TransactionType.
Proof. solve_decision. Defined.

Definition TransactionType_value (ty : TransactionType) : string :=
  match ty with
  | DEPOSIT => "DEPOSIT"
  | WITHDRAW => "WITHDRAW"
  end.

Module TransactionRecord.

Record t := mk {
  account_id : UUID;
  amount : Decimal;
  type : TransactionType;
  transaction_timestamp : datetime;
  transaction_id : UUID
}.

End TransactionRecord.

(** ** The format [f"{n:010d}"] *)

Fixpoint zeros (n : nat) : string :=
  match n with
  | O => ""
  | S n' => String "0" (zeros n')
  end.

(** Zero padding on the left up to [width]; a longer string is kept whole. *)
Definition zfill (width : nat) (s : string) : string :=
  zeros (width - String.length s) +:+ s.

(** The decimal digits of a natural number, no leading zero. *)
Definition digits (n : N) : string :=
  NilEmpty.string_of_uint (N.to_uint n).

(** Width 10 counts the sign, which comes before the padding. *)
Definition format_010d (n : Z) : string :=
  if (n <? 0)%Z
  then String "-" (zfill 9 (digits (Z.to_N (- n))))
  else zfill 10 (digits (Z.to_N n)).

(** ** The state of the program *)

(** A reference to an [Account] object: its index in the heap. *)
Abbreviation ref := nat (only parsing).

Record AccountRepository_state := mkAccountRepository {
  accounts : gmap UUID ref;
  customer_accounts : gmap UUID (list ref);
  current_account_number : Z
}.

Record TransactionRepository_state := mkTransactionRepository {
  transactions : gmap UUID (list TransactionRecord.t)
}.

Record World := mkWorld {
  heap : list Account.t;
  account_repository : AccountRepository_state;
  transaction_repository : TransactionRepository_state
}.

(** [AccountRepository()] and [TransactionRepository()], and no object yet. *)
Definition init : World :=
  mkWorld [] (mkAccountRepository ∅ ∅ 0) (mkTransactionRepository ∅).

Definition set_heap (f : list Account.t -> list Account.t) (w : World) : World :=
  mkWorld (f (heap w)) (account_repository w) (transaction_repository w).

Definition set_accounts (f : gmap UUID ref -> gmap UUID ref) (w : World) : World :=
  let r := account_repository w in
  mkWorld (heap w)
    (mkAccountRepository (f (accounts r)) (customer_accounts r)
       (current_account_number r))
    (transaction_repository w).

Definition set_customer_accounts
    (f : gmap UUID (list ref) -> gmap UUID (list ref)) (w : World) : World :=
  let r := account_repository w in
  mkWorld (heap w)
    (mkAccountRepository (accounts r) (f (customer_accounts r))
       (current_account_number r))
    (transaction_repository w).

Definition set_current_account_number (f : Z -> Z) (w : World) : World :=
  let r := account_repository w in
  mkWorld (heap w)
    (mkAccountRepository (accounts r) (customer_accounts r)
       (f (current_account_number r)))
    (transaction_repository w).

Definition set_transactions
    (f : gmap UUID (list TransactionRecord.t)
         -> gmap UUID (list TransactionRecord.t))
    (w : World) : World :=
  mkWorld (heap w) (account_repository w)
    (mkTransactionRepository (f (transactions (transaction_repository w)))).

(** ** Computations: state and exceptions

    A computation returns a value or raises, and in both cases hands on the
    state it reached. *)

Definition M (A : Type) : Type := World -> (exn + A) * World.

#[global] Instance M_ret : MRet M := fun A a w => (inr a, w).

#[global] Instance M_bind : MBind M := fun A B k m w =>
  match m w with
  | (inl e, w') => (inl e, w')
  | (inr a, w') => k a w'
  end.

Definition raise {A : Type} (e : exn) : M A := fun w => (inl e, w).

Definition gets {A : Type} (f : World -> A) : M A := fun w => (inr (f w), w).

Definition modify (f : World -> World) : M unit := fun w => (inr tt, f w).

(** [d[k]] on a dictionary. *)
Definition dict_get {V : Type} (d : gmap UUID V) (k : UUID) : M V :=
  match d !! k with
  | Some v => mret v
  | None => raise (KeyError k)
  end.

(** Reading the object behind a reference. *)
Definition deref (r : ref) : M Account.t := fun w =>
  match heap w !! r with
  | Some a => (inr a, w)
  | None => (inl DanglingRef, w)
  end.

(** A new object: the next free cell of the heap. *)
Definition alloc (a : Account.t) : M ref := fun w =>
  (inr (length (heap w)), set_heap (fun h => h ++ [a]) w).

(** A method of [Account] called on the object behind [self]. *)
Definition call (method : Account.t -> exn + Account.t) (self : ref) : M unit :=
  a ← deref self;
  match method a with
  | inl e => raise e
  | inr a' => modify (set_heap (fun h => <[self := a']> h))
  end.

Definition Account_deposit (self : ref) (amount : Decimal) : M unit :=
  call (fun a => Account.deposit a amount) self.

Definition Account_withdraw (self : ref) (amount : Decimal) : M unit :=
  call (fun a => Account.withdraw a amount) self.

(** [Account(customer_id=.., account_number=..)]: balance [Decimal("0")],
    [account_id] the value [fresh] drawn by [uuid4()], then [__post_init__]. *)
Definition Account_new (customer_id : UUID) (account_number : string)
    (fresh : UUID) : M ref :=
  let self := Account.mk customer_id account_number 0 fresh in
  match Account.post_init self with
  | inl e => raise e
  | inr _ => alloc self
  end.

(** ** Repositories *)

Module AccountRepository.

Definition save_account (account : ref) : M unit :=
  a ← deref account;
  accts ← gets (fun w => accounts (account_repository w));
  match accts !! Account.account_id a with
  | Some _ => raise (ValueError "Account already exists")
  | None =>
      modify (set_accounts (fun d => <[Account.account_id a := account]> d)) ;;
      by_customer ← gets (fun w => customer_accounts (account_repository w));
      match by_customer !! Account.customer_id a with
      | None =>
          modify (set_customer_accounts
                    (fun d => <[Account.customer_id a := []]> d))
      | Some _ => mret tt
      end ;;
      by_customer ← gets (fun w => customer_accounts (account_repository w));
      l ← dict_get by_customer (Account.customer_id a);
      modify (set_customer_accounts
                (fun d => <[Account.customer_id a := l ++ [account]]> d))
  end.

Definition generate_account_number : M string :=
  modify (set_current_account_number (fun n => n + 1)%Z) ;;
  n ← gets (fun w => current_account_number (account_repository w));
  mret (format_010d n).

Definition find_account_by_id (account_id : UUID) : M ref :=
  accts ← gets (fun w => accounts (account_repository w));
  dict_get accts account_id.

Definition find_accounts_by_customer_id (customer_id : UUID) : M (list ref) :=
  by_customer ← gets (fun w => customer_accounts (account_repository w));
  mret (default [] (by_customer !! customer_id)).

End AccountRepository.

Module TransactionRepository.

Definition get_transactions (account_id : UUID) : M (list TransactionRecord.t) :=
  d ← gets (fun w => transactions (transaction_repository w));
  match d !! account_id with
  | None => raise (ValueError "Account has not made transactions")
  | Some _ => dict_get d account_id
  end.

Definition store_transaction (transaction_record : TransactionRecord.t) : M unit :=
  let account_id := TransactionRecord.account_id transaction_record in
  d ← gets (fun w => transactions (transaction_repository w));
  match d !! account_id with
  | None => modify (set_transactions (fun d => <[account_id := []]> d))
  | Some _ => mret tt
  end ;;
  d ← gets (fun w => transactions (transaction_repository w));
  l ← dict_get d account_id;
  modify (set_transactions (fun d => <[account_id := l ++ [transaction_record]]> d)).

End TransactionRepository.

(** ** Services *)

Module AccountService.

(** [fresh] is the [uuid4()] drawn for the new account. *)
Definition create_account (input_customer : Customer.t) (fresh : UUID) : M ref :=
  account_number ← AccountRepository.generate_account_number;
  new_account ← Account_new (Customer.customer_id input_customer)
                  account_number fresh;
  AccountRepository.save_account new_account ;;
  mret new_account.

End AccountService.

Module TransactionService.

Definition _create_transaction_record (account_id : UUID) (amount : Decimal)
    (type : TransactionType) (now : datetime) (fresh : UUID)
    : TransactionRecord.t :=
  TransactionRecord.mk account_id amount type now fresh.

(** [now] and [fresh] are the [datetime.now()] and [uuid4()] drawn when
    the record is constructed. *)
Definition _process_transaction (account_id : UUID) (amount : Decimal)
    (transaction_type : TransactionType) (now : datetime) (fresh : UUID)
    : M TransactionRecord.t :=
  if (amount <? 0)%Z
  then raise (ValueError "Amount should be positive value")
  else
    account ← AccountRepository.find_account_by_id account_id;
    (if decide (transaction_type = DEPOSIT)
     then Account_deposit account amount else mret tt) ;;
    (if decide (transaction_type = WITHDRAW)
     then Account_withdraw account amount else mret tt) ;;
    mret (_create_transaction_record account_id amount transaction_type now fresh).

Definition make_transaction (account_id : UUID) (amount : Decimal)
    (transaction_type : TransactionType) (now : datetime) (fresh : UUID)
    : M unit :=
  transaction_record ←
    _process_transaction account_id amount transaction_type now fresh;
  TransactionRepository.store_transaction transaction_record.

End TransactionService.

Module AccountStatement.

Section Rendering.

(** [str(timestamp)] and [f"{amount:.2f}"], left to the libraries. *)
Variable str_datetime : datetime -> string.
Variable format_2f : Decimal -> string.

(** [TransactionRecord.__repr__], which [str(transaction)] calls. *)
Definition repr (self : TransactionRecord.t) : string :=
  "DATE: " +:+ str_datetime (TransactionRecord.transaction_timestamp self)
  +:+ " ------ TYPE: " +:+ TransactionType_value (TransactionRecord.type self)
  +:+ " ------- AMOUNT: P" +:+ format_2f (TransactionRecord.amount self).

Definition newline : string := String (ascii_of_nat 10) "".

Definition generate_account_statement (account_id : UUID) : M string :=
  transactions ← TransactionRepository.get_transactions account_id;
  mret (String.concat newline (map repr transactions)).

End Rendering.

End AccountStatement.

(** ** The error kinds of the specification, as the program raises them *)


Definition InsufficientFunds : exn := ValueError "Insufficient balance".


Definition DuplicateAccount : exn := ValueError "Account already exists".

Definition NoTransactions : exn := ValueError "Account has not made transactions".

Definition InvalidPhoneNumber : exn :=
  ValueError
    "Invalid phone number. Please input phone number starting with '63' PH code".

Definition InvalidEmail : exn := ValueError "Invalid email".

(** ** Runs of the program

    What a driver can do to the ledger: open an account, call [deposit] or
    [withdraw] on an account object it holds, ask for an account number, or
    make a transaction.  An exception is caught by the driver and the run
    goes on from the state the exception left. *)

Inductive Op :=
| CreateAccount (input_customer : Customer.t) (fresh : UUID)
| Deposit (account : ref) (amount : Decimal)
| Withdraw (account : ref) (amount : Decimal)
| GenerateAccountNumber
| MakeTransaction (account_id : UUID) (amount : Decimal)
    (transaction_type : TransactionType) (now : datetime) (fresh : UUID).

Definition exec (o : Op) : M unit :=
  match o with
  | CreateAccount c fresh => AccountService.create_account c fresh ;; mret tt
  | Deposit account amount => Account_deposit account amount
  | Withdraw account amount => Account_withdraw account amount
  | GenerateAccountNumber => AccountRepository.generate_account_number ;; mret tt
  | MakeTransaction account_id amount ty now fresh =>
      TransactionService.make_transaction account_id amount ty now fresh
  end.

Definition step (w : World) (o : Op) : World := snd (exec o w).

Definition run (ops : list Op) (w : World) : World := fold_left step ops w.

(** The record of [o], when [o] is a [make_transaction] call on
    [account_id] that completes from [w]. *)
Definition completed1 (account_id : UUID) (o : Op) (w : World)
    : option TransactionRecord.t :=
  match o with
  | MakeTransaction id amount ty now fresh =>
      if decide (id = account_id)
      then match fst (exec o w) with
           | inr _ =>
               Some (TransactionService._create_transaction_record
                       id amount ty now fresh)
           | inl _ => None
           end
      else None
  | _ => None
  end.

(** The records of the [make_transaction] calls on [account_id] that
    completed during a run, in the order of the calls. *)
Fixpoint completed (account_id : UUID) (ops : list Op) (w : World)
    : list TransactionRecord.t :=
  match ops with
  | [] => []
  | o :: ops' =>
      option_list (completed1 account_id o w)
      ++ completed account_id ops' (step w o)
  end.

(** The account numbers returned by the [generate_account_number] calls of
    a run (those of [create_account] included), in the order of the calls. *)
Fixpoint issued (ops : list Op) (w : World) : list string :=
  match ops with
  | [] => []
  | o :: ops' =>
      match o with
      | CreateAccount _ _ | GenerateAccountNumber =>
          match fst (AccountRepository.generate_account_number w) with
          | inr s => [s]
          | inl _ => []
          end
      | _ => []
      end ++ issued ops' (step w o)
  end.

(** ** Observations *)

(** The balance of the account stored under [account_id]. *)
Definition balance_of (w : World) (account_id : UUID) : option Z :=
  l ← accounts (account_repository w) !! account_id;
  a ← heap w !! l;
  Some (Account.balance a).

(** The history of [account_id]: empty while nothing is recorded. *)
Definition history (w : World) (account_id : UUID) : list TransactionRecord.t :=
  default [] (transactions (transaction_repository w) !! account_id).

(** The references held by the repository are live, the object stored
    under an id carries that id, and the objects listed under a customer
    are those stored by id that belong to the customer. *)
Definition wf (w : World) : Prop :=
  (∀ id l, accounts (account_repository w) !! id = Some l →
     ∃ a, heap w !! l = Some a ∧ Account.account_id a = id)
  ∧ (∀ c ls l, customer_accounts (account_repository w) !! c = Some ls →
       l ∈ ls →
       ∃ a, heap w !! l = Some a ∧ Account.customer_id a = c
            ∧ accounts (account_repository w) !! Account.account_id a = Some l).

(** What [deposit] or [withdraw] does, by the kind of the transaction. *)
Definition apply_type (ty : TransactionType) (a : Account.t) (amount : Z)
    : exn + Account.t :=
  match ty with
  | DEPOSIT => Account.deposit a amount
  | WITHDRAW => Account.withdraw a amount
  end.

(** Every account object has a balance that is not negative. *)
Definition nonneg (w : World) : Prop :=
  ∀ l a, heap w !! l = Some a → (0 ≤ Account.balance a)%Z.

(** One of the ten ASCII digits. *)
Definition ascii_digit (c : ascii) : bool :=
  let n := nat_of_ascii c in ((48 <=? n) && (n <=? 57))%nat.

(** [int(s)] for a string of ASCII digits. *)
Definition int_of_digits (s : string) : option N :=
  option_map N.of_uint (NilEmpty.uint_of_string s).

(** The largest counter value that still prints in ten characters. *)
Definition max_account_number : Z := 9999999999.

(** The object behind [l] is live and its balance is not negative. *)
Definition nonneg_at (l : ref) (w : World) : Prop :=
  ∃ a, heap w !! l = Some a ∧ (0 ≤ Account.balance a)%Z.

(** ** The scenario of the specification

    A customer, the account opened for it from the empty ledger under the
    id 100, and a ledger whose counter has reached the last ten-digit
    number. *)

Definition customer_A : Customer.t :=
  Customer.mk "A" "a@x.com" "639213423123" 7.

Definition opened : World := snd (AccountService.create_account customer_A 100 init).

Definition exhausted : World :=
  mkWorld [] (mkAccountRepository ∅ ∅ max_account_number) (mkTransactionRepository ∅).

(** A phone number of twelve characters that [str.isdigit] accepts, the
    last one the superscript two. *)
Definition phone_superscript : string :=
  "63921342312" +:+ String (ascii_of_nat 178) "".


Definition scenario : list Op :=
  [MakeTransaction 100 5000 DEPOSIT 1 201;
   MakeTransaction 100 500 WITHDRAW 2 202;
   MakeTransaction 100 10000 WITHDRAW 3 203;
   Withdraw 0 4500;
   Deposit 0 (-5)].

Definition unsaved : World := snd (Account_new 7 "0000000001" 100 init).

Definition two_accounts : World :=
  run [CreateAccount customer_A 100; CreateAccount customer_A 101] init.

(** Every stored record has an amount that is not negative, and a
    positive one when it records a withdrawal. *)
Definition amounts_recorded (w : World) : Prop :=
  ∀ id rs r, transactions (transaction_repository w) !! id = Some rs → r ∈ rs →
    (0 ≤ TransactionRecord.amount r)%Z
    ∧ (TransactionRecord.type r = WITHDRAW → (0 < TransactionRecord.amount r)%Z).

(** ** Further observations on runs *)

(** The reference returned by [o], when [o] is a [create_account] call for
    the customer [customer_id] that returns from [w]. *)
Definition opened1 (customer_id : UUID) (o : Op) (w : World) : option ref :=
  match o with
  | CreateAccount c fresh =>
      if decide (Customer.customer_id c = customer_id)
      then match fst (AccountService.create_account c fresh w) with
           | inr l => Some l
           | inl _ => None
           end
      else None
  | _ => None
  end.

(** The accounts that the [create_account] calls of a run have opened for
    [customer_id], in the order of the calls. *)
Fixpoint opened_for (customer_id : UUID) (ops : list Op) (w : World)
    : list ref :=
  match ops with
  | [] => []
  | o :: ops' =>
      option_list (opened1 customer_id o w)
      ++ opened_for customer_id ops' (step w o)
  end.





(** The account objects carry the numbers of an increasing sequence of
    counter values, each of ten characters. *)
Definition numbered (w : World) : Prop :=
  (0 ≤ current_account_number (account_repository w))%Z
  ∧ ∃ ns : list Z,
    Account.account_number <$> heap w = format_010d <$> ns
    ∧ StronglySorted Z.lt ns
    ∧ Forall (λ m, 0 < m ≤ current_account_number (account_repository w))%Z ns
    ∧ Forall (λ a, String.length (Account.account_number a) = 10) (heap w).

(** A stored account is listed under its customer. *)
Definition listed (w : World) : Prop :=
  ∀ id l a, accounts (account_repository w) !! id = Some l →
    heap w !! l = Some a →
    ∃ ls, customer_accounts (account_repository w) !! Account.customer_id a
          = Some ls ∧ l ∈ ls.

(** A stored history is not empty, belongs to a stored account, and holds
    records that carry the id it is stored under. *)
Definition filed (w : World) : Prop :=
  ∀ id rs, transactions (transaction_repository w) !! id = Some rs →
    rs ≠ []
    ∧ Forall (λ r, TransactionRecord.account_id r = id) rs
    ∧ is_Some (accounts (account_repository w) !! id).

(** Two account objects are the same account: they differ at most in the
    balance. *)
Definition same_account (a a' : Account.t) : Prop :=
  Account.account_id a' = Account.account_id a
  ∧ Account.customer_id a' = Account.customer_id a
  ∧ Account.account_number a' = Account.account_number a.

(** A ledger whose counter is far past the last ten-digit number, and a
    run through the services only. *)
Definition overrun : World :=
  mkWorld [] (mkAccountRepository ∅ ∅ 123456789012) (mkTransactionRepository ∅).

Definition service_run : list Op :=
  [CreateAccount customer_A 100;
   MakeTransaction 100 5000 DEPOSIT 1 201;
   CreateAccount customer_A 101;
   MakeTransaction 100 500 WITHDRAW 2 202;
   MakeTransaction 101 70 DEPOSIT 3 203;
   MakeTransaction 100 10000 WITHDRAW 4 204;
   GenerateAccountNumber].

(** * Properties *)

(** ** The operations, case by case *)

Ltac unfold_M :=
  unfold call, alloc, deref, dict_get, gets, modify, raise in *;
  unfold mbind, M_bind, mret, M_ret in *.

Lemma call_eq (method : Account.t → exn + Account.t) (self : nat) (w : World) :
  call method self w =
  match heap w !! self with
  | None => (inl DanglingRef, w)
  | Some a =>
      match method a with
      | inl e => (inl e, w)
      | inr a' => (inr tt, set_heap (λ h, <[self := a']> h) w)
      end
  end.
Proof.
  unfold_M. destruct (heap w !! self) as [a|]; [|done].
  by destruct (method a).
Qed.

Lemma store_transaction_eq (r : TransactionRecord.t) (w : World) :
  TransactionRepository.store_transaction r w =
  (inr tt,
   set_transactions
     (λ d, <[TransactionRecord.account_id r :=
               default [] (d !! TransactionRecord.account_id r) ++ [r]]> d) w).
Proof.
  unfold TransactionRepository.store_transaction. unfold_M.
  destruct w as [h ar [d]]; simpl.
  destruct (d !! TransactionRecord.account_id r) as [l|] eqn:E; simpl.
  - rewrite E. unfold set_transactions; simpl. by rewrite E.
  - rewrite lookup_insert_eq. unfold set_transactions; simpl.
    by rewrite E, insert_insert_eq.
Qed.

Lemma make_transaction_eq (id : N) (amount : Z) (ty : TransactionType)
    (now : Z) (fresh : N) (w : World) :
  TransactionService.make_transaction id amount ty now fresh w =
  if (amount <? 0)%Z then (inl (ValueError "Amount should be positive value"), w)
  else match accounts (account_repository w) !! id with
       | None => (inl (KeyError id), w)
       | Some l =>
           match heap w !! l with
           | None => (inl DanglingRef, w)
           | Some a =>
               match apply_type ty a amount with
               | inl e => (inl e, w)
               | inr a' =>
                   (inr tt,
                    set_transactions
                      (λ d, <[id := default [] (d !! id)
                                    ++ [TransactionRecord.mk id amount ty now fresh]]> d)
                      (set_heap (λ h, <[l := a']> h) w))
               end
           end
       end.
Proof.
  unfold TransactionService.make_transaction,
    TransactionService._process_transaction,
    AccountRepository.find_account_by_id, Account_deposit, Account_withdraw.
  destruct (amount <? 0)%Z; [done|].
  unfold mbind at 1 2 3 4 5, M_bind. unfold gets at 1. unfold dict_get.
  destruct (accounts (account_repository w) !! id) as [l|]; [|done].
  unfold mret at 1, M_ret at 1.
  destruct ty.
  - rewrite (decide_True (P := DEPOSIT = DEPOSIT)) by done.
    rewrite (decide_False (P := DEPOSIT = WITHDRAW)) by done.
    rewrite call_eq. destruct (heap w !! l) as [a|]; [|done]. simpl.
    destruct (Account.deposit a amount); [done|].
    unfold mret, M_ret. by rewrite store_transaction_eq.
  - rewrite (decide_False (P := WITHDRAW = DEPOSIT)) by done.
    rewrite (decide_True (P := WITHDRAW = WITHDRAW)) by done.
    unfold mret at 1, M_ret at 1. rewrite call_eq.
    destruct (heap w !! l) as [a|]; [|done]. simpl.
    destruct (Account.withdraw a amount); [done|].
    unfold mret, M_ret. by rewrite store_transaction_eq.
Qed.

Lemma save_account_eq (account : nat) (w : World) :
  AccountRepository.save_account account w =
  match heap w !! account with
  | None => (inl DanglingRef, w)
  | Some a =>
      match accounts (account_repository w) !! Account.account_id a with
      | Some _ => (inl (ValueError "Account already exists"), w)
      | None =>
          (inr tt,
           set_customer_accounts
             (λ d, <[Account.customer_id a :=
                       default [] (d !! Account.customer_id a) ++ [account]]> d)
             (set_accounts (λ d, <[Account.account_id a := account]> d) w))
      end
  end.
Proof.
  unfold AccountRepository.save_account. unfold_M.
  destruct (heap w !! account) as [a|]; [|done].
  destruct (accounts (account_repository w) !! Account.account_id a); [done|].
  destruct w as [h [acs cas n] tr]; simpl.
  destruct (cas !! Account.customer_id a) as [l|] eqn:E; simpl.
  - rewrite E. unfold set_customer_accounts; simpl. by rewrite E.
  - rewrite lookup_insert_eq. unfold set_customer_accounts; simpl.
    by rewrite E, insert_insert_eq.
Qed.

Lemma generate_account_number_eq (w : World) :
  AccountRepository.generate_account_number w =
  (inr (format_010d (current_account_number (account_repository w) + 1)),
   set_current_account_number (λ n, n + 1)%Z w).
Proof. done. Qed.

Lemma create_account_eq (c : Customer.t) (fresh : N) (w : World) :
  AccountService.create_account c fresh w =
  let w1 := set_current_account_number (λ n, n + 1)%Z w in
  let self :=
    Account.mk (Customer.customer_id c)
      (format_010d (current_account_number (account_repository w) + 1)) 0 fresh in
  match Account.post_init self with
  | inl e => (inl e, w1)
  | inr _ =>
      let w2 := set_heap (λ h, h ++ [self]) w1 in
      match accounts (account_repository w) !! fresh with
      | Some _ => (inl (ValueError "Account already exists"), w2)
      | None =>
          (inr (length (heap w)),
           set_customer_accounts
             (λ d, <[Customer.customer_id c :=
                       default [] (d !! Customer.customer_id c)
                       ++ [length (heap w)]]> d)
             (set_accounts (λ d, <[fresh := length (heap w)]> d) w2))
      end
  end.
Proof.
  unfold AccountService.create_account.
  unfold mbind at 1, M_bind at 1. rewrite generate_account_number_eq.
  unfold mbind at 1, M_bind at 1. unfold Account_new. cbv zeta.
  destruct (Account.post_init _) as [e|[]]; [done|].
  unfold alloc. unfold mbind, M_bind. rewrite save_account_eq.
  destruct w as [h [acs cas n] tr]; simpl.
  rewrite lookup_app_r by done. rewrite Nat.sub_diag. simpl.
  by destruct (acs !! fresh).
Qed.

(** ** Lemmas on the invariants *)

Lemma deposit_inr (a a' : Account.t) (amount : Z) :
  Account.deposit a amount = inr a' →
  (0 ≤ amount)%Z ∧ a' = Account.set_balance (Account.balance a + amount) a.
Proof.
  unfold Account.deposit. destruct (Z.ltb_spec amount 0); [done|].
  intros [= <-]. done.
Qed.

Lemma withdraw_inr (a a' : Account.t) (amount : Z) :
  Account.withdraw a amount = inr a' →
  (0 < amount ≤ Account.balance a)%Z
  ∧ a' = Account.set_balance (Account.balance a - amount) a.
Proof.
  unfold Account.withdraw. destruct (Z.leb_spec amount 0); [done|].
  destruct (Z.gtb_spec amount (Account.balance a)); [done|].
  intros [= <-]. split; [lia|done].
Qed.

Lemma apply_type_inr (ty : TransactionType) (a a' : Account.t) (amount : Z) :
  apply_type ty a amount = inr a' →
  ∃ b, a' = Account.set_balance b a
       ∧ (0 ≤ amount)%Z
       ∧ (0 ≤ Account.balance a → 0 ≤ b)%Z
       ∧ b = match ty with
             | DEPOSIT => (Account.balance a + amount)%Z
             | WITHDRAW => (Account.balance a - amount)%Z
             end.
Proof.
  destruct ty; simpl; intros H.
  - apply deposit_inr in H as [? ->]. eexists. repeat split; [done|lia].
  - apply withdraw_inr in H as [? ->]. eexists. repeat split; lia.
Qed.

Lemma snd_then_ret {A : Type} (m : M A) (w : World) :
  snd ((m ;; mret tt) w) = snd (m w).
Proof. unfold_M. by destruct (m w) as [[e|a] w']. Qed.

Lemma run_cons (o : Op) (ops : list Op) (w : World) :
  run (o :: ops) w = run ops (step w o).
Proof. done. Qed.

Lemma run_app (ops1 ops2 : list Op) (w : World) :
  run (ops1 ++ ops2) w = run ops2 (run ops1 w).
Proof. apply fold_left_app. Qed.

Lemma nonneg_update (w : World) (l : nat) (a' : Account.t) (f : World → World) :
  nonneg w → (0 ≤ Account.balance a')%Z →
  heap (f (set_heap (λ h, <[l := a']> h) w)) = <[l := a']> (heap w) →
  nonneg (f (set_heap (λ h, <[l := a']> h) w)).
Proof.
  intros Hw Ha Hf l' x. rewrite Hf.
  intros [(-> & <- & _)|[_ H]]%list_lookup_insert_Some; [done|by eapply Hw].
Qed.

Lemma nonneg_call (method : Account.t → exn + Account.t) (l : nat) (w : World) :
  (∀ a a', method a = inr a' →
     (0 ≤ Account.balance a)%Z → (0 ≤ Account.balance a')%Z) →
  nonneg w → nonneg (snd (call method l w)).
Proof.
  intros Hm Hw. rewrite call_eq.
  destruct (heap w !! l) as [a|] eqn:El; [|done].
  destruct (method a) as [e|a'] eqn:Em; [done|]. simpl.
  apply (nonneg_update w l a' id); [done| |done].
  eapply Hm; [done|]. by eapply Hw.
Qed.

Lemma nonneg_step (w : World) (o : Op) : nonneg w → nonneg (step w o).
Proof.
  intros Hw. unfold step. destruct o as [c fresh|l amount|l amount| |id amount ty now fresh];
    simpl exec.
  - rewrite snd_then_ret, create_account_eq. cbv zeta.
    destruct (Account.post_init _); [done|].
    assert (nonneg (set_heap (λ h, h ++ [Account.mk (Customer.customer_id c)
              (format_010d (current_account_number (account_repository w) + 1))
              0 fresh])
              (set_current_account_number (λ n, (n + 1)%Z) w))) as Hw2.
    { intros l a. simpl.
      intros [H|[_ H]]%lookup_app_Some; [by eapply Hw|].
      apply list_lookup_singleton_Some in H as [_ <-]. done. }
    by destruct (accounts (account_repository w) !! fresh).
  - apply nonneg_call; [|done]. intros a a' [? ->]%deposit_inr ?. simpl. lia.
  - apply nonneg_call; [|done]. intros a a' [? ->]%withdraw_inr ?. simpl. lia.
  - done.
  - rewrite make_transaction_eq. destruct (amount <? 0)%Z; [done|].
    destruct (accounts (account_repository w) !! id) as [l|]; [|done].
    destruct (heap w !! l) as [a|] eqn:El; [|done].
    destruct (apply_type ty a amount) as [e|a'] eqn:Ea; [done|]. simpl snd.
    apply apply_type_inr in Ea as (b & -> & _ & Hb & _).
    apply (nonneg_update w l _ (set_transactions _)); [done| |done].
    simpl. apply Hb. by eapply Hw.
Qed.

Lemma nonneg_run (ops : list Op) (w : World) : nonneg w → nonneg (run ops w).
Proof.
  revert w. induction ops as [|o ops IH]; intros w Hw; [done|].
  rewrite run_cons. by apply IH, nonneg_step.
Qed.

Lemma nonneg_init : nonneg init.
Proof. intros l a. simpl. by rewrite lookup_nil. Qed.

(** In every state a run reaches from the empty ledger, no account object
    has a negative balance. *)
Lemma nonneg_reachable (ops : list Op) : nonneg (run ops init).
Proof. apply nonneg_run, nonneg_init. Qed.

Lemma wf_init : wf init.
Proof. split; simpl; intros *; by rewrite lookup_empty. Qed.

Lemma wf_transactions (w : World)
    (f : gmap N (list TransactionRecord.t) → gmap N (list TransactionRecord.t)) :
  wf w → wf (set_transactions f w).
Proof. done. Qed.

Lemma wf_alloc (w : World) (x : Account.t) :
  wf w → wf (set_heap (λ h, h ++ [x]) w).
Proof.
  intros [H1 H2]. split; simpl.
  - intros id l Hl. destruct (H1 id l Hl) as (a & Ha & Hid).
    exists a. split; [|done]. by apply lookup_app_l_Some.
  - intros c ls l Hc Hin. destruct (H2 c ls l Hc Hin) as (a & Ha & Hid).
    exists a. split; [|done]. by apply lookup_app_l_Some.
Qed.

Lemma wf_update (w : World) (l : nat) (a a' : Account.t) :
  wf w → heap w !! l = Some a →
  Account.account_id a' = Account.account_id a →
  Account.customer_id a' = Account.customer_id a →
  wf (set_heap (λ h, <[l := a']> h) w).
Proof.
  intros [H1 H2] Hl Hid Hcid. split; simpl.
  - intros id l0 Hl0. destruct (H1 id l0 Hl0) as (a0 & Ha0 & Hid0).
    destruct (decide (l0 = l)) as [->|Hne].
    + exists a'. rewrite list_lookup_insert_eq by by eapply lookup_lt_Some.
      split; [done|]. congruence.
    + exists a0. by rewrite list_lookup_insert_ne.
  - intros c ls l0 Hc Hin.
    destruct (H2 c ls l0 Hc Hin) as (a0 & Ha0 & Hc0 & Hacc).
    destruct (decide (l0 = l)) as [->|Hne].
    + exists a'. rewrite list_lookup_insert_eq by by eapply lookup_lt_Some.
      split; [done|]. rewrite Hid, Hcid. split; congruence.
    + exists a0. by rewrite list_lookup_insert_ne.
Qed.

Lemma wf_save (w : World) (l : nat) (a : Account.t) :
  wf w → heap w !! l = Some a →
  accounts (account_repository w) !! Account.account_id a = None →
  wf (set_customer_accounts
        (λ d, <[Account.customer_id a :=
                  default [] (d !! Account.customer_id a) ++ [l]]> d)
        (set_accounts (λ d, <[Account.account_id a := l]> d) w)).
Proof.
  intros [H1 H2] Hl Hnone. split; simpl.
  - intros id l0. rewrite lookup_insert. case_decide as Hid.
    + intros [= <-]. exists a. by subst.
    + apply H1.
  - assert (∀ c ls l0, customer_accounts (account_repository w) !! c = Some ls →
              l0 ∈ ls →
              ∃ a0, heap w !! l0 = Some a0 ∧ Account.customer_id a0 = c
                    ∧ <[Account.account_id a := l]> (accounts (account_repository w))
                        !! Account.account_id a0 = Some l0) as H2'.
    { intros c ls l0 Hc Hin.
      destruct (H2 c ls l0 Hc Hin) as (a0 & Ha0 & Hc0 & Hacc).
      exists a0. repeat split; [done..|].
      rewrite lookup_insert_ne; [done|]. congruence. }
    intros c ls l0. rewrite lookup_insert. case_decide as Hc.
    + intros [= <-]. rewrite elem_of_app, list_elem_of_singleton.
      intros [Hin| ->].
      * destruct (customer_accounts (account_repository w) !! Account.customer_id a)
          as [ls|] eqn:E; simpl in Hin; [|by apply elem_of_nil in Hin].
        subst c. by eapply H2'.
      * exists a. by rewrite lookup_insert_eq.
    + apply H2'.
Qed.

Lemma wf_step (w : World) (o : Op) : wf w → wf (step w o).
Proof.
  intros Hw. unfold step.
  destruct o as [c fresh|l amount|l amount| |id amount ty now fresh]; simpl exec.
  - rewrite snd_then_ret, create_account_eq. cbv zeta.
    destruct (Account.post_init _); [done|].
    set (self := Account.mk _ _ _ _).
    set (w2 := set_heap _ _).
    assert (wf w2) as Hw2 by by apply wf_alloc.
    destruct (accounts (account_repository w) !! fresh) eqn:E; [done|].
    simpl snd. apply (wf_save w2 (length (heap w)) self); [done| |done].
    simpl. by rewrite lookup_app_r, Nat.sub_diag.
  - unfold Account_deposit. rewrite call_eq.
    destruct (heap w !! l) as [a|] eqn:El; [|done].
    destruct (Account.deposit a amount) as [|a'] eqn:Ea; [done|].
    apply deposit_inr in Ea as [_ ->]. by eapply wf_update.
  - unfold Account_withdraw. rewrite call_eq.
    destruct (heap w !! l) as [a|] eqn:El; [|done].
    destruct (Account.withdraw a amount) as [|a'] eqn:Ea; [done|].
    apply withdraw_inr in Ea as [_ ->]. by eapply wf_update.
  - done.
  - rewrite make_transaction_eq. destruct (amount <? 0)%Z; [done|].
    destruct (accounts (account_repository w) !! id) as [l|]; [|done].
    destruct (heap w !! l) as [a|] eqn:El; [|done].
    destruct (apply_type ty a amount) as [e|a'] eqn:Ea; [done|]. simpl snd.
    apply apply_type_inr in Ea as (b & -> & _).
    apply wf_transactions. by eapply wf_update.
Qed.

Lemma wf_run (ops : list Op) (w : World) : wf w → wf (run ops w).
Proof.
  revert w. induction ops as [|o ops IH]; intros w Hw; [done|].
  rewrite run_cons. by apply IH, wf_step.
Qed.

(** Every state a run reaches from the empty ledger is well formed. *)
Lemma wf_reachable (ops : list Op) : wf (run ops init).
Proof. apply wf_run, wf_init. Qed.

(** ** The account number format *)

Lemma length_zeros (n : nat) : String.length (zeros n) = n.
Proof. induction n; simpl; congruence. Qed.

Lemma append_nil (t : string) : "" +:+ t = t.
Proof. done. Qed.

Lemma append_cons (c : ascii) (s t : string) :
  String c s +:+ t = String c (s +:+ t).
Proof. done. Qed.

Lemma length_append (s t : string) :
  String.length (s +:+ t) = String.length s + String.length t.
Proof.
  induction s; [done|]. rewrite append_cons. simpl. congruence.
Qed.

Lemma length_zfill (width : nat) (s : string) :
  String.length (zfill width s) = width `max` String.length s.
Proof. unfold zfill. rewrite length_append, length_zeros. lia. Qed.

Lemma length_string_of_uint (d : Decimal.uint) :
  String.length (NilEmpty.string_of_uint d) = Decimal.nb_digits d.
Proof. induction d; simpl; congruence. Qed.

Lemma of_uint_acc_lower (d : Decimal.uint) (acc : positive) :
  (Z.pos acc * 10 ^ Z.of_nat (Decimal.nb_digits d)
   ≤ Z.pos (Pos.of_uint_acc d acc))%Z.
Proof.
  revert acc. induction d; intros acc; simpl Pos.of_uint_acc;
    simpl Decimal.nb_digits;
    [simpl; lia
    |rewrite Nat2Z.inj_succ, Z.pow_succ_r by lia;
     etransitivity; [|apply IHd];
     pose proof (Z.pow_nonneg 10 (Z.of_nat (Decimal.nb_digits d)) ltac:(lia));
     nia ..].
Qed.

Lemma nb_digits_nzhead_bound (d : Decimal.uint) (k : nat) :
  (Z.of_N (N.of_uint d) < 10 ^ Z.of_nat k)%Z →
  Decimal.nb_digits (Decimal.nzhead d) ≤ k.
Proof.
  induction d; simpl; intros H; [lia|by apply IHd|..].
  all: match type of H with
       | (Z.pos (Pos.of_uint_acc ?d ?acc) < _)%Z =>
           pose proof (of_uint_acc_lower d acc) as Hlow
       end.
  all: assert (10 ^ Z.of_nat (Decimal.nb_digits d) < 10 ^ Z.of_nat k)%Z as Hpow
         by (pose proof (Z.pow_pos_nonneg 10 (Z.of_nat (Decimal.nb_digits d)));
             nia).
  all: apply Z.pow_lt_mono_r_iff in Hpow; lia.
Qed.

Lemma nb_digits_to_uint (n : N) (k : nat) :
  1 ≤ k → (Z.of_N n < 10 ^ Z.of_nat k)%Z →
  Decimal.nb_digits (N.to_uint n) ≤ k.
Proof.
  intros Hk Hn.
  rewrite <- (DecimalN.Unsigned.of_to n) in Hn.
  apply nb_digits_nzhead_bound in Hn.
  rewrite <- (DecimalN.Unsigned.of_to n) at 1.
  rewrite DecimalN.Unsigned.to_of. unfold Decimal.unorm.
  destruct (Decimal.nzhead (N.to_uint n)); simpl in *; lia.
Qed.

Lemma length_digits (n : N) :
  (Z.of_N n ≤ max_account_number)%Z → String.length (digits n) ≤ 10.
Proof.
  intros Hn. unfold digits. rewrite length_string_of_uint.
  apply nb_digits_to_uint; [lia|]. unfold max_account_number in Hn.
  change (10 ^ Z.of_nat 10)%Z with 10000000000%Z. lia.
Qed.

Lemma str_all_append (p : ascii → bool) (s t : string) :
  str_all p (s +:+ t) = str_all p s && str_all p t.
Proof.
  induction s; [done|]. rewrite append_cons. simpl. rewrite IHs.
  by rewrite andb_assoc.
Qed.

Lemma str_all_zeros (n : nat) : str_all ascii_digit (zeros n) = true.
Proof. induction n; [done|]. simpl. by rewrite IHn. Qed.

Lemma str_all_string_of_uint (d : Decimal.uint) :
  str_all ascii_digit (NilEmpty.string_of_uint d) = true.
Proof. induction d; [done|simpl; by rewrite IHd ..]. Qed.

Lemma str_all_impl (p q : ascii → bool) (s : string) :
  (∀ c, p c = true → q c = true) → str_all p s = true → str_all q s = true.
Proof.
  intros Hpq. induction s as [|c s IH]; [done|]. simpl.
  intros [Hc Hs]%andb_true_iff. by rewrite (Hpq c Hc), IH.
Qed.

Lemma ascii_digit_isdigit (c : ascii) : ascii_digit c = true → chr_isdigit c = true.
Proof. unfold ascii_digit, chr_isdigit. cbv zeta. by intros ->. Qed.

Lemma str_isdigit_all (s : string) :
  0 < String.length s → str_all ascii_digit s = true → str_isdigit s = true.
Proof.
  destruct s as [|c s]; [simpl; lia|]. intros _ H. unfold str_isdigit.
  by apply (str_all_impl ascii_digit), H; apply ascii_digit_isdigit.
Qed.

Lemma format_010d_nonneg (n : Z) :
  (0 ≤ n)%Z → format_010d n = zfill 10 (digits (Z.to_N n)).
Proof. unfold format_010d. by destruct (Z.ltb_spec n 0); [lia|]. Qed.

Lemma length_format_010d (n : Z) :
  (0 ≤ n ≤ max_account_number)%Z → String.length (format_010d n) = 10.
Proof.
  intros Hn. rewrite format_010d_nonneg, length_zfill by lia.
  pose proof (length_digits (Z.to_N n)). lia.
Qed.

Lemma str_all_format_010d (n : Z) :
  (0 ≤ n)%Z → str_all ascii_digit (format_010d n) = true.
Proof.
  intros Hn. rewrite format_010d_nonneg by done. unfold zfill, digits.
  by rewrite str_all_append, str_all_zeros, str_all_string_of_uint.
Qed.

Lemma uint_of_string_zeros (k : nat) (s : string) :
  NilEmpty.uint_of_string (zeros k +:+ s)
  = option_map (Nat.iter k Decimal.D0) (NilEmpty.uint_of_string s).
Proof.
  induction k as [|k IH]; simpl zeros.
  - rewrite append_nil. by destruct (NilEmpty.uint_of_string s).
  - rewrite append_cons. simpl NilEmpty.uint_of_string. rewrite IH.
    by destruct (NilEmpty.uint_of_string s).
Qed.

Lemma of_uint_iter_D0 (k : nat) (d : Decimal.uint) :
  N.of_uint (Nat.iter k Decimal.D0 d) = N.of_uint d.
Proof. induction k; [done|]. simpl. exact IHk. Qed.

Lemma int_of_format_010d (n : Z) :
  (0 ≤ n)%Z → int_of_digits (format_010d n) = Some (Z.to_N n).
Proof.
  intros Hn. rewrite format_010d_nonneg by done.
  unfold int_of_digits, zfill, digits.
  rewrite uint_of_string_zeros, NilEmpty.usu. simpl.
  by rewrite of_uint_iter_D0, DecimalN.Unsigned.of_to.
Qed.

Lemma format_010d_inj (n m : Z) :
  (0 ≤ n)%Z → (0 ≤ m)%Z → format_010d n = format_010d m → n = m.
Proof.
  intros Hn Hm E. apply (f_equal int_of_digits) in E.
  rewrite !int_of_format_010d in E by done. injection E. lia.
Qed.

Lemma post_init_format_010d (c : N) (n b : Z) (i : N) :
  (0 ≤ n ≤ max_account_number)%Z →
  Account.post_init (Account.mk c (format_010d n) b i) = inr tt.
Proof.
  intros Hn. unfold Account.post_init. simpl.
  rewrite length_format_010d by done.
  rewrite str_isdigit_all; [done| |apply str_all_format_010d; lia].
  rewrite length_format_010d by done. lia.
Qed.

(** ** The counter of account numbers along a run *)

Lemma counter_create_account (c : Customer.t) (fresh : N) (w : World) :
  current_account_number (account_repository (snd (AccountService.create_account c fresh w)))
  = (current_account_number (account_repository w) + 1)%Z.
Proof.
  rewrite create_account_eq. cbv zeta.
  destruct (Account.post_init _); [done|].
  by destruct (accounts (account_repository w) !! fresh).
Qed.

Lemma counter_call (method : Account.t → exn + Account.t) (l : nat) (w : World) :
  account_repository (snd (call method l w)) = account_repository w.
Proof.
  rewrite call_eq. destruct (heap w !! l) as [a|]; [|done].
  by destruct (method a).
Qed.

Lemma repository_make_transaction (id : N) (amount : Z) (ty : TransactionType)
    (now : Z) (fresh : N) (w : World) :
  account_repository
    (snd (TransactionService.make_transaction id amount ty now fresh w))
  = account_repository w.
Proof.
  rewrite make_transaction_eq. destruct (amount <? 0)%Z; [done|].
  destruct (accounts (account_repository w) !! id) as [l|]; [|done].
  destruct (heap w !! l) as [a|]; [|done].
  by destruct (apply_type ty a amount).
Qed.

Lemma issued_run (ops : list Op) (w : World) :
  issued ops w
  = format_010d <$> seqZ (current_account_number (account_repository w) + 1)
                      (Z.of_nat (length (issued ops w)))
  ∧ current_account_number (account_repository (run ops w))
    = (current_account_number (account_repository w)
       + Z.of_nat (length (issued ops w)))%Z.
Proof.
  revert w. induction ops as [|o ops IH]; intros w.
  { simpl. split; [done|lia]. }
  rewrite run_cons. destruct (IH (step w o)) as [IH1 IH2].
  assert (∀ n : Z, seqZ n (Z.of_nat (S (length (issued ops (step w o)))))
            = n :: seqZ (n + 1) (Z.of_nat (length (issued ops (step w o)))))
    as Hseq.
  { intros n. rewrite seqZ_cons by lia. do 2 f_equal; lia. }
  destruct o as [c fresh|l amount|l amount| |id amount ty now fresh];
    cbn [issued]; rewrite ?generate_account_number_eq; cbn [fst app length].
  - rewrite Hseq, fmap_cons.
    assert (current_account_number (account_repository
              (step w (CreateAccount c fresh)))
            = (current_account_number (account_repository w) + 1)%Z) as E.
    { unfold step. simpl exec. by rewrite snd_then_ret, counter_create_account. }
    rewrite E in IH1, IH2. rewrite IH2. split; [by f_equal|lia].
  - assert (account_repository (step w (Deposit l amount)) = account_repository w)
      as E by apply counter_call.
    rewrite E in IH1, IH2. done.
  - assert (account_repository (step w (Withdraw l amount)) = account_repository w)
      as E by apply counter_call.
    rewrite E in IH1, IH2. done.
  - rewrite Hseq, fmap_cons.
    change (current_account_number (account_repository (step w GenerateAccountNumber)))
      with (current_account_number (account_repository w) + 1)%Z in IH1, IH2.
    rewrite IH2. split; [by f_equal|lia].
  - assert (account_repository (step w (MakeTransaction id amount ty now fresh))
            = account_repository w) as E by apply repository_make_transaction.
    rewrite E in IH1, IH2. done.
Qed.

Lemma StronglySorted_seqZ (m : Z) (k : nat) :
  StronglySorted Z.lt (seqZ m (Z.of_nat k)).
Proof.
  revert m. induction k as [|k IH]; intros m; [constructor|].
  rewrite seqZ_cons by lia.
  replace (Z.pred (Z.of_nat (S k))) with (Z.of_nat k) by lia.
  constructor; [apply IH|]. apply Forall_seqZ. lia.
Qed.

Lemma run_generate (k : nat) :
  run (replicate k GenerateAccountNumber) init
  = mkWorld [] (mkAccountRepository ∅ ∅ (Z.of_nat k)) (mkTransactionRepository ∅).
Proof.
  induction k as [|k IH]; [done|].
  rewrite replicate_S_end, run_app, IH. unfold run, step. simpl.
  unfold set_current_account_number. simpl. do 2 f_equal. lia.
Qed.

(** ** The transaction history along a run *)

Lemma get_transactions_eq (id : N) (w : World) :
  TransactionRepository.get_transactions id w =
  match transactions (transaction_repository w) !! id with
  | None => (inl NoTransactions, w)
  | Some l => (inr l, w)
  end.
Proof.
  unfold TransactionRepository.get_transactions. unfold_M.
  by destruct (transactions (transaction_repository w) !! id).
Qed.

Lemma generate_account_statement_eq (str_datetime format_2f : Z → string)
    (id : N) (w : World) :
  AccountStatement.generate_account_statement str_datetime format_2f id w =
  match transactions (transaction_repository w) !! id with
  | None => (inl NoTransactions, w)
  | Some l =>
      (inr (String.concat AccountStatement.newline
              (map (AccountStatement.repr str_datetime format_2f) l)), w)
  end.
Proof.
  unfold AccountStatement.generate_account_statement.
  unfold mbind, M_bind. rewrite get_transactions_eq.
  by destruct (transactions (transaction_repository w) !! id).
Qed.

Lemma transactions_create_account (c : Customer.t) (fresh : N) (w : World) :
  transaction_repository (snd (AccountService.create_account c fresh w))
  = transaction_repository w.
Proof.
  rewrite create_account_eq. cbv zeta.
  destruct (Account.post_init _); [done|].
  by destruct (accounts (account_repository w) !! fresh).
Qed.

Lemma transactions_call (method : Account.t → exn + Account.t) (l : nat)
    (w : World) :
  transaction_repository (snd (call method l w)) = transaction_repository w.
Proof.
  rewrite call_eq. destruct (heap w !! l) as [a|]; [|done].
  by destruct (method a).
Qed.

Lemma transactions_step (w : World) (o : Op) (id : N) :
  transactions (transaction_repository (step w o)) !! id =
  match completed1 id o w with
  | None => transactions (transaction_repository w) !! id
  | Some r => Some (history w id ++ [r])
  end.
Proof.
  unfold step.
  destruct o as [c fresh|l amount|l amount| |id0 amount ty now fresh];
    cbn [completed1 exec].
  - by rewrite snd_then_ret, transactions_create_account.
  - unfold Account_deposit. by rewrite transactions_call.
  - unfold Account_withdraw. by rewrite transactions_call.
  - done.
  - rewrite make_transaction_eq.
    destruct (amount <? 0)%Z; [by case_decide|].
    destruct (accounts (account_repository w) !! id0) as [l|]; [|by case_decide].
    destruct (heap w !! l) as [a|]; [|by case_decide].
    destruct (apply_type ty a amount) as [e|a']; [by case_decide|].
    simpl. rewrite lookup_insert. by case_decide; subst.
Qed.

Lemma transactions_run (ops : list Op) (w : World) (id : N) :
  transactions (transaction_repository (run ops w)) !! id =
  match completed id ops w with
  | [] => transactions (transaction_repository w) !! id
  | rs => Some (history w id ++ rs)
  end.
Proof.
  revert w. induction ops as [|o ops IH]; intros w; [done|].
  rewrite run_cons, IH. cbn [completed].
  pose proof (transactions_step w o id) as Hs. unfold history at 1.
  destruct (completed1 id o w) as [r|]; simpl option_list.
  - rewrite Hs. simpl. destruct (completed id ops (step w o)); [done|].
    by rewrite <- app_assoc.
  - rewrite Hs. simpl. done.
Qed.

(** ** The balance of one account object along a run *)

Lemma nonneg_at_update (l l' : nat) (a a' : Account.t) (w w' : World) :
  nonneg_at l w → heap w !! l' = Some a →
  ((0 ≤ Account.balance a)%Z → (0 ≤ Account.balance a')%Z) →
  heap w' = <[l' := a']> (heap w) →
  nonneg_at l w'.
Proof.
  intros (x & Hx & Hb) Hl' Ha Hw'. unfold nonneg_at. rewrite Hw'.
  destruct (decide (l = l')) as [->|Hne].
  - exists a'. rewrite list_lookup_insert_eq by by eapply lookup_lt_Some.
    split; [done|]. apply Ha. congruence.
  - exists x. by rewrite list_lookup_insert_ne.
Qed.

Lemma nonneg_at_call (method : Account.t → exn + Account.t) (l l' : nat)
    (w : World) :
  (∀ a a', method a = inr a' →
     (0 ≤ Account.balance a)%Z → (0 ≤ Account.balance a')%Z) →
  nonneg_at l w → nonneg_at l (snd (call method l' w)).
Proof.
  intros Hm Hw. rewrite call_eq.
  destruct (heap w !! l') as [a|] eqn:El; [|done].
  destruct (method a) as [e|a'] eqn:Em; [done|].
  eapply (nonneg_at_update l l' a a'); [done..|by apply Hm|done].
Qed.

Lemma nonneg_at_step (l : nat) (w : World) (o : Op) :
  nonneg_at l w → nonneg_at l (step w o).
Proof.
  intros Hw. unfold step.
  destruct o as [c fresh|l' amount|l' amount| |id amount ty now fresh];
    simpl exec.
  - rewrite snd_then_ret, create_account_eq. cbv zeta.
    destruct (Account.post_init _); [done|].
    destruct Hw as (x & Hx & Hb).
    assert (∀ y, (heap w ++ [y]) !! l = Some x) as Hx'
      by (intros; by apply lookup_app_l_Some).
    destruct (accounts (account_repository w) !! fresh); exists x; simpl; auto.
  - apply nonneg_at_call; [|done]. intros a a' [? ->]%deposit_inr ?. simpl. lia.
  - apply nonneg_at_call; [|done]. intros a a' [? ->]%withdraw_inr ?. simpl. lia.
  - done.
  - rewrite make_transaction_eq. destruct (amount <? 0)%Z; [done|].
    destruct (accounts (account_repository w) !! id) as [l'|]; [|done].
    destruct (heap w !! l') as [a|] eqn:El; [|done].
    destruct (apply_type ty a amount) as [e|a'] eqn:Ea; [done|]. simpl snd.
    apply apply_type_inr in Ea as (b & -> & _ & Hb & _).
    by apply (nonneg_at_update l l' a (Account.set_balance b a) w).
Qed.

Lemma nonneg_at_run (l : nat) (ops : list Op) (w : World) :
  nonneg_at l w → nonneg_at l (run ops w).
Proof.
  revert w. induction ops as [|o ops IH]; intros w Hw; [done|].
  rewrite run_cons. by apply IH, nonneg_at_step.
Qed.

Lemma create_account_inr (c : Customer.t) (fresh : N) (w : World) (l : nat) :
  fst (AccountService.create_account c fresh w) = inr l →
  l = length (heap w)
  ∧ accounts (account_repository w) !! fresh = None
  ∧ ∃ a, heap (snd (AccountService.create_account c fresh w)) !! l = Some a
         ∧ Account.balance a = 0%Z
         ∧ Account.account_id a = fresh
         ∧ Account.customer_id a = Customer.customer_id c
         ∧ accounts (account_repository
                       (snd (AccountService.create_account c fresh w))) !! fresh
           = Some l.
Proof.
  rewrite create_account_eq. cbv zeta.
  destruct (Account.post_init _); [done|].
  destruct (accounts (account_repository w) !! fresh) eqn:E; [done|].
  simpl. intros [= <-]. split; [done|]. split; [done|].
  eexists. rewrite lookup_app_r, Nat.sub_diag by done. simpl.
  split; [done|]. by rewrite lookup_insert_eq.
Qed.

(** ** What the amount checks do guarantee *)


Lemma Account_deposit_records_nothing (self : nat) (amount : Z) (w : World) :
  transaction_repository (snd (Account_deposit self amount w))
  = transaction_repository w.
Proof. apply transactions_call. Qed.

Lemma completed1_amount (id : N) (o : Op) (w : World) (r : TransactionRecord.t) :
  completed1 id o w = Some r →
  (0 ≤ TransactionRecord.amount r)%Z
  ∧ (TransactionRecord.type r = WITHDRAW → (0 < TransactionRecord.amount r)%Z).
Proof.
  destruct o as [| | | |id0 amount ty now fresh]; try done. cbn [completed1 exec].
  case_decide; [|done]. rewrite make_transaction_eq.
  destruct (amount <? 0)%Z; [done|].
  destruct (accounts (account_repository w) !! id0) as [l|]; [|done].
  destruct (heap w !! l) as [a|]; [|done].
  destruct (apply_type ty a amount) as [e|a'] eqn:Ea; [done|].
  simpl. intros [= <-]. simpl. split.
  - by apply apply_type_inr in Ea as (b & _ & ? & _).
  - intros ->. simpl in Ea. apply withdraw_inr in Ea. lia.
Qed.

Lemma amounts_recorded_step (w : World) (o : Op) :
  amounts_recorded w → amounts_recorded (step w o).
Proof.
  intros Hw id rs r. rewrite transactions_step.
  destruct (completed1 id o w) as [r0|] eqn:E; [|apply Hw].
  intros [= <-]. rewrite elem_of_app, list_elem_of_singleton.
  intros [Hin| ->]; [|by eapply completed1_amount].
  unfold history in Hin.
  destruct (transactions (transaction_repository w) !! id) as [rs|] eqn:Et;
    simpl in Hin; [by eapply Hw|by apply elem_of_nil in Hin].
Qed.

Lemma amounts_recorded_run (ops : list Op) (w : World) :
  amounts_recorded w → amounts_recorded (run ops w).
Proof.
  revert w. induction ops as [|o ops IH]; intros w Hw; [done|].
  rewrite run_cons. by apply IH, amounts_recorded_step.
Qed.

Lemma amounts_recorded_init : amounts_recorded init.
Proof. intros id rs r. simpl. by rewrite lookup_empty. Qed.

(** ** The scenarios of the specification, run on the model *)

Lemma create_account_succeeds (c : Customer.t) (fresh : N) (w : World) :
  (0 ≤ current_account_number (account_repository w) < max_account_number)%Z →
  accounts (account_repository w) !! fresh = None →
  fst (AccountService.create_account c fresh w) = inr (length (heap w)).
Proof.
  intros Hn Hfresh. rewrite create_account_eq. cbv zeta.
  rewrite post_init_format_010d by lia. by rewrite Hfresh.
Qed.

Example scenario_1 :
  fst (AccountService.create_account customer_A 100 init) = inr 0
  ∧ heap opened !! 0 = Some (Account.mk 7 "0000000001" 0 100).
Proof. split; vm_compute; reflexivity. Qed.

Example scenario_2 :
  let w := run [MakeTransaction 100 5000 DEPOSIT 1 201;
                MakeTransaction 100 500 WITHDRAW 2 202] opened in
  balance_of w 100 = Some 4500%Z
  ∧ history w 100 = [TransactionRecord.mk 100 5000 DEPOSIT 1 201;
                     TransactionRecord.mk 100 500 WITHDRAW 2 202].
Proof. split; vm_compute; reflexivity. Qed.

Example scenario_3 :
  let w := run [MakeTransaction 100 5000 DEPOSIT 1 201;
                MakeTransaction 100 500 WITHDRAW 2 202] opened in
  TransactionService.make_transaction 100 10000 WITHDRAW 3 203 w
  = (inl InsufficientFunds, w).
Proof. vm_compute; reflexivity. Qed.

Example scenario_4 :
  fst (AccountService.create_account customer_A 100 opened) = inl DuplicateAccount
  ∧ accounts (account_repository
                (snd (AccountService.create_account customer_A 100 opened)))
    = accounts (account_repository opened).
Proof. split; vm_compute; reflexivity. Qed.

Example scenario_5 (str_datetime format_2f : Z → string) :
  AccountStatement.generate_account_statement str_datetime format_2f 100 opened
  = (inl NoTransactions, opened).
Proof. reflexivity. Qed.

(** ** The properties of the specification *)

(** C1. An account opened by [AccountService.create_account] starts with
    balance zero, and after any sequence of [Account.deposit],
    [Account.withdraw] and [TransactionService.make_transaction] calls
    (account openings and number requests included), whether the calls
    succeed or raise, its balance is at least zero. *)
Theorem C1_balance_never_negative (w : World) (c : Customer.t) (fresh : N)
    (l : nat) (ops : list Op) :
  fst (AccountService.create_account c fresh w) = inr l →
  let w' := snd (AccountService.create_account c fresh w) in
  balance_of w' fresh = Some 0%Z
  ∧ ∃ a, heap (run ops w') !! l = Some a ∧ (0 ≤ Account.balance a)%Z.
Proof.
  intros H. destruct (create_account_inr c fresh w l H)
    as (_ & _ & a & Ha & Hb & _ & _ & Hacc).
  cbv zeta. split.
  - unfold balance_of. rewrite Hacc. simpl. rewrite Ha. simpl. by rewrite Hb.
  - apply nonneg_at_run. exists a. split; [done|lia].
Qed.



(** C10. A [make_transaction] call on [account_id], whether it returns or
    raises, leaves the balance and the history of every account stored
    under another id as they were; it changes nothing in the account
    repository, and no account object but the one stored under
    [account_id]. *)
Theorem C10_make_transaction_frame (w : World) (id : N) (amount : Z)
    (ty : TransactionType) (now : Z) (fresh : N) (id' : N) :
  wf w → id' ≠ id →
  let w' := snd (TransactionService.make_transaction id amount ty now fresh w) in
  balance_of w' id' = balance_of w id'
  ∧ transactions (transaction_repository w') !! id'
    = transactions (transaction_repository w) !! id'
  ∧ account_repository w' = account_repository w
  ∧ ∀ l, accounts (account_repository w) !! id ≠ Some l →
         heap w' !! l = heap w !! l.
Proof.
  intros [Hwf _] Hne. cbv zeta. rewrite make_transaction_eq.
  destruct (amount <? 0)%Z; [done|].
  destruct (accounts (account_repository w) !! id) as [l|] eqn:Eid; [|done].
  destruct (heap w !! l) as [a|] eqn:Ha; [|done].
  destruct (apply_type ty a amount) as [e|a'] eqn:Ea; [done|]. simpl snd.
  split; [|split; [|split]].
  - unfold balance_of. simpl.
    destruct (accounts (account_repository w) !! id') as [l'|] eqn:Eid'; [|done].
    simpl. rewrite list_lookup_insert_ne; [done|]. intros ->.
    destruct (Hwf id l' Eid) as (a1 & Ha1 & Hid1).
    destruct (Hwf id' l' Eid') as (a2 & Ha2 & Hid2). congruence.
  - simpl. by rewrite lookup_insert_ne.
  - done.
  - intros l0 Hl0. simpl. rewrite list_lookup_insert_ne; [done|]. congruence.
Qed.

(** C9. [save_account] raises [DuplicateAccount] exactly when an account
    is already stored under the id of the account, and then leaves the
    state as it was; otherwise it stores the account under its id and
    appends it to the list of its customer, after the accounts already
    listed, and changes nothing else. *)
Theorem C9_save_account (w : World) (account : nat) (a : Account.t) :
  heap w !! account = Some a →
  let stored := accounts (account_repository w) !! Account.account_id a in
  let r := AccountRepository.save_account account w in
  (fst r = inl DuplicateAccount ↔ is_Some stored)
  ∧ (is_Some stored → r = (inl DuplicateAccount, w))
  ∧ (stored = None →
     fst r = inr tt
     ∧ accounts (account_repository (snd r))
       = <[Account.account_id a := account]> (accounts (account_repository w))
     ∧ customer_accounts (account_repository (snd r))
       = <[Account.customer_id a :=
             default [] (customer_accounts (account_repository w)
                           !! Account.customer_id a) ++ [account]]>
           (customer_accounts (account_repository w))
     ∧ AccountRepository.find_account_by_id (Account.account_id a) (snd r)
       = (inr account, snd r)
     ∧ AccountRepository.find_accounts_by_customer_id (Account.customer_id a) (snd r)
       = (inr (default [] (customer_accounts (account_repository w)
                             !! Account.customer_id a) ++ [account]), snd r)
     ∧ heap (snd r) = heap w
     ∧ current_account_number (account_repository (snd r))
       = current_account_number (account_repository w)
     ∧ transaction_repository (snd r) = transaction_repository w).
Proof.
  intros Ha. cbv zeta. rewrite save_account_eq, Ha.
  destruct (accounts (account_repository w) !! Account.account_id a) eqn:E.
  - split; [done|]. split; [done|]. done.
  - split; [split; [done|by intros [? ?]]|]. split; [by intros [? ?]|].
    intros _. simpl. repeat split.
    + unfold AccountRepository.find_account_by_id. unfold_M. simpl.
      by rewrite lookup_insert_eq.
    + unfold AccountRepository.find_accounts_by_customer_id. unfold_M. simpl.
      by rewrite lookup_insert_eq.
Qed.

(** C7. After any run from the empty ledger, [get_transactions] and
    [generate_account_statement] raise [NoTransactions] exactly when no
    [make_transaction] call on the account has completed, which is when
    nothing is stored for the account; otherwise the first returns the
    records of the completed calls in the order of the calls, oldest
    first, and the second renders them in that order, one per line.
    Neither changes the state. *)
Theorem C7_history_in_call_order (str_datetime format_2f : Z → string)
    (ops : list Op) (id : N) :
  let w := run ops init in
  let records := completed id ops init in
  (transactions (transaction_repository w) !! id = None ↔ records = [])
  ∧ match records with
    | [] =>
        TransactionRepository.get_transactions id w = (inl NoTransactions, w)
        ∧ AccountStatement.generate_account_statement str_datetime format_2f id w
          = (inl NoTransactions, w)
    | _ =>
        TransactionRepository.get_transactions id w = (inr records, w)
        ∧ AccountStatement.generate_account_statement str_datetime format_2f id w
          = (inr (String.concat AccountStatement.newline
                    (map (AccountStatement.repr str_datetime format_2f) records)),
             w)
    end.
Proof.
  cbv zeta. rewrite get_transactions_eq, generate_account_statement_eq.
  rewrite transactions_run. unfold history. simpl.
  rewrite lookup_empty. simpl.
  by destruct (completed id ops init).
Qed.

(** C8, amended. [generate_account_number] returns the counter after
    adding one to it, in decimal and padded with zeros to ten characters.
    Along any run from a counter that is not negative, the numbers
    returned are strictly increasing, so none is returned twice, and this
    whether or not the [save_account] of a [create_account] fails: a
    [create_account] that raises has still advanced the counter by one.
    Each returned string has exactly ten ASCII digits as long as the
    counter has not passed 9999999999. *)
Theorem C8_account_numbers (w : World) (ops : list Op) :
  (0 ≤ current_account_number (account_repository w))%Z →
  let n := current_account_number (account_repository w) in
  let ss := issued ops w in
  AccountRepository.generate_account_number w
  = (inr (format_010d (n + 1)), set_current_account_number (λ n, n + 1)%Z w)
  ∧ (∃ ns : list Z,
       ss = format_010d <$> ns
       ∧ int_of_digits <$> ss = (λ m, Some (Z.to_N m)) <$> ns
       ∧ StronglySorted Z.lt ns
       ∧ Forall (λ m, n < m)%Z ns)
  ∧ NoDup ss
  ∧ current_account_number (account_repository (run ops w))
    = (n + Z.of_nat (length ss))%Z
  ∧ (∀ c fresh e,
       fst (AccountService.create_account c fresh w) = inl e →
       current_account_number
         (account_repository (snd (AccountService.create_account c fresh w)))
       = (n + 1)%Z)
  ∧ ((n + Z.of_nat (length ss) ≤ max_account_number)%Z →
     Forall (λ s, String.length s = 10 ∧ str_all ascii_digit s = true) ss).
Proof.
  intros Hn. cbv zeta. destruct (issued_run ops w) as [Hss Hc].
  set (n := current_account_number (account_repository w)) in *.
  set (k := length (issued ops w)) in *.
  assert (Forall (λ m, n < m < n + 1 + Z.of_nat k)%Z (seqZ (n + 1) (Z.of_nat k)))
    as Hrange by (apply Forall_seqZ; lia).
  split; [done|]. split; [|split; [|split; [done|split]]].
  - exists (seqZ (n + 1) (Z.of_nat k)). split; [done|]. split; [|split].
    + rewrite Hss at 1. rewrite <- list_fmap_compose.
      apply Forall_fmap_ext_1. eapply Forall_impl; [exact Hrange|].
      intros m Hm. simpl in Hm |- *. apply int_of_format_010d. lia.
    + apply StronglySorted_seqZ.
    + eapply Forall_impl; [exact Hrange|]. intros m Hm. simpl in Hm |- *. lia.
  - rewrite Hss. apply NoDup_fmap_2_strong; [|apply NoDup_seqZ].
    intros x y Hx Hy. rewrite Forall_forall in Hrange.
    apply format_010d_inj.
    + apply Hrange in Hx. lia.
    + apply Hrange in Hy. lia.
  - intros c fresh e _. apply counter_create_account.
  - intros Hmax. rewrite Hss. apply Forall_fmap.
    eapply Forall_impl; [exact Hrange|]. intros m Hm. simpl in Hm |- *. split.
    + apply length_format_010d. lia.
    + apply str_all_format_010d. lia.
Qed.


(** C6, amended. Constructing a [Customer] raises [InvalidPhoneNumber]
    whenever the phone number is not a string of exactly twelve characters
    that [str.isdigit] accepts.  For a phone number that begins with 63:
    construction raises [InvalidPhoneNumber] exactly in that case, and
    with twelve digits it raises [InvalidEmail] exactly when the email
    contains no at sign, and succeeds otherwise. *)
Theorem C6_customer_validation (name email phone : string) (fresh : N) :
  let r := Customer.new name email phone fresh in
  let twelve_digits := str_isdigit phone && (String.length phone =? 12)%nat in
  (twelve_digits = false → r = inl InvalidPhoneNumber)
  ∧ (String.prefix "63" phone = true →
     (r = inl InvalidPhoneNumber ↔ twelve_digits = false)
     ∧ (twelve_digits = true →
        (r = inl InvalidEmail ↔ str_contains "@" email = false)
        ∧ (str_contains "@" email = true →
           r = inr (Customer.mk name email phone fresh)))).
Proof.
  cbv zeta. unfold Customer.new, Customer.post_init. simpl.
  unfold InvalidPhoneNumber, InvalidEmail.
  destruct (str_isdigit phone), (String.length phone =? 12)%nat,
    (str_contains "@" email); simpl;
    repeat split; intros; try done; discriminate.
Qed.

(** C4: [deposit] does not raise on the amount zero, which its own
    message and [withdraw] exclude; the account is left as it was. *)
Theorem C4_deposit_accepts_zero (self : Account.t) :
  Account.deposit self 0 = inr self.
Proof.
  unfold Account.deposit, Account.set_balance. simpl.
  destruct self. simpl. by rewrite Z.add_0_r.
Qed.

(** C3: a [make_transaction] call that deposits the amount zero on the
    opened account returns, and stores a record whose amount is zero. *)
Theorem C3_zero_amount_recorded :
  TransactionService.make_transaction 100 0 DEPOSIT 1 201 opened
  = (inr tt,
     set_transactions
       (λ d, <[100%N := [TransactionRecord.mk 100 0 DEPOSIT 1 201]]> d) opened)
  ∧ history
      (snd (TransactionService.make_transaction 100 0 DEPOSIT 1 201 opened)) 100
    = [TransactionRecord.mk 100 0 DEPOSIT 1 201].
Proof. split; vm_compute; reflexivity. Qed.

(** ** Inputs on which the wording of the specification fails *)

(** C6 as stated fails: a phone number of twelve digits that does not
    begin with 63 is accepted; so are an email that is only an at sign, an
    email with two at signs, and a phone number whose last character is a
    superscript digit. *)
Lemma C6_counterexample :
  (String.prefix "63" "001234567890" = false
   ∧ Customer.new "A" "a@x.com" "001234567890" 1
     = inr (Customer.mk "A" "a@x.com" "001234567890" 1))
  ∧ Customer.new "A" "@" "639213423123" 1
    = inr (Customer.mk "A" "@" "639213423123" 1)
  ∧ Customer.new "A" "a@b@c" "639213423123" 1
    = inr (Customer.mk "A" "a@b@c" "639213423123" 1)
  ∧ (str_all ascii_digit phone_superscript = false
     ∧ Customer.new "A" "a@x.com" phone_superscript 1
       = inr (Customer.mk "A" "a@x.com" phone_superscript 1)).
Proof. repeat split; vm_compute; reflexivity. Qed.

(** C8 as stated fails: once 9999999999 numbers are issued, which a run of
    that many calls reaches, the next call returns a string of eleven
    characters, and [create_account] then raises on the account number. *)
Lemma C8_counterexample :
  (∃ ops, run ops init = exhausted)
  ∧ fst (AccountRepository.generate_account_number exhausted)
    = inr "10000000000"
  ∧ String.length "10000000000" = 11
  ∧ fst (AccountService.create_account customer_A 100 exhausted)
    = inl (ValueError "Account number must be 10 digits").
Proof.
  split; [|repeat split; vm_compute; reflexivity].
  exists (replicate (Z.to_nat max_account_number) GenerateAccountNumber).
  rewrite run_generate. unfold exhausted.
  rewrite Z2Nat.id; [reflexivity|]. unfold max_account_number. lia.
Qed.

(** ** The theorems at concrete inputs *)

Lemma C1_witness :
  fst (AccountService.create_account customer_A 100 init) = inr 0
  ∧ balance_of opened 100 = Some 0%Z
  ∧ ∃ a, heap (run scenario opened) !! 0 = Some a ∧ (0 ≤ Account.balance a)%Z.
Proof.
  split; [vm_compute; reflexivity|].
  apply (C1_balance_never_negative init customer_A 100 0 scenario).
  vm_compute; reflexivity.
Defined.



Lemma C8_witness :
  (0 ≤ current_account_number (account_repository init))%Z
  ∧ NoDup (issued [CreateAccount customer_A 100; CreateAccount customer_A 100;
                   GenerateAccountNumber] init).
Proof.
  assert (0 ≤ current_account_number (account_repository init))%Z as Hn
    by (simpl; lia).
  split; [exact Hn|].
  apply (C8_account_numbers init
           [CreateAccount customer_A 100; CreateAccount customer_A 100;
            GenerateAccountNumber] Hn).
Defined.

Lemma C9_witness :
  heap unsaved !! 0 = Some (Account.mk 7 "0000000001" 0 100)
  ∧ fst (AccountRepository.save_account 0 unsaved) = inr tt.
Proof.
  assert (heap unsaved !! 0 = Some (Account.mk 7 "0000000001" 0 100)) as Ha
    by reflexivity.
  split; [exact Ha|].
  apply (C9_save_account unsaved 0 _ Ha). reflexivity.
Defined.

Lemma C10_witness :
  wf two_accounts ∧ 101%N ≠ 100%N
  ∧ balance_of
      (snd (TransactionService.make_transaction 100 5000 DEPOSIT 1 201 two_accounts))
      101
    = balance_of two_accounts 101.
Proof.
  assert (wf two_accounts) as Hwf by exact (wf_run _ init wf_init).
  assert (101%N ≠ 100%N) as Hne by discriminate.
  split; [exact Hwf|]. split; [exact Hne|].
  apply (C10_make_transaction_frame two_accounts 100 5000 DEPOSIT 1 201 101 Hwf Hne).
Defined.

(** * Further properties of the code *)

(** ** Opening accounts *)

Lemma of_uint_acc_upper (d : Decimal.uint) (acc : positive) :
  (Z.pos (Pos.of_uint_acc d acc)
   < (Z.pos acc + 1) * 10 ^ Z.of_nat (Decimal.nb_digits d))%Z.
Proof.
  revert acc. induction d; intros acc; simpl Pos.of_uint_acc;
    simpl Decimal.nb_digits;
    [simpl; lia
    |rewrite Nat2Z.inj_succ, Z.pow_succ_r by lia;
     eapply Z.lt_le_trans; [apply IHd|];
     pose proof (Z.pow_nonneg 10 (Z.of_nat (Decimal.nb_digits d)) ltac:(lia));
     nia ..].
Qed.

Lemma of_uint_upper (d : Decimal.uint) :
  (Z.of_N (N.of_uint d) < 10 ^ Z.of_nat (Decimal.nb_digits d))%Z.
Proof.
  induction d; simpl N.of_uint; simpl Decimal.nb_digits;
    [simpl; lia
    |rewrite Nat2Z.inj_succ, Z.pow_succ_r by lia;
     pose proof (Z.pow_pos_nonneg 10 (Z.of_nat (Decimal.nb_digits d))
                   ltac:(lia) ltac:(lia));
     try (simpl in IHd; lia);
     match goal with
     | |- context [Pos.of_uint_acc ?d ?acc] =>
         pose proof (of_uint_acc_upper d acc)
     end; simpl Z.of_N; nia ..].
Qed.

Lemma digits_upper (n : N) :
  (Z.of_N n < 10 ^ Z.of_nat (String.length (digits n)))%Z.
Proof.
  unfold digits. rewrite length_string_of_uint.
  rewrite <- (DecimalN.Unsigned.of_to n) at 1. apply of_uint_upper.
Qed.

Lemma length_format_010d_over (n : Z) :
  (max_account_number < n)%Z → 10 < String.length (format_010d n).
Proof.
  intros Hn. unfold max_account_number in Hn.
  rewrite format_010d_nonneg, length_zfill by lia.
  pose proof (digits_upper (Z.to_N n)) as Hup.
  destruct (decide (String.length (digits (Z.to_N n)) ≤ 10)) as [Hle|]; [|lia].
  assert (10 ^ Z.of_nat (String.length (digits (Z.to_N n))) ≤ 10 ^ 10)%Z
    by (apply Z.pow_le_mono_r; lia).
  change (10 ^ 10)%Z with 10000000000%Z in *. lia.
Qed.

Lemma post_init_over (c : N) (n b : Z) (i : N) :
  (max_account_number < n)%Z →
  Account.post_init (Account.mk c (format_010d n) b i)
  = inl (ValueError "Account number must be 10 digits").
Proof.
  intros Hn. unfold Account.post_init. simpl.
  pose proof (length_format_010d_over n Hn).
  destruct (Nat.eqb_spec (String.length (format_010d n)) 10); [lia|].
  by rewrite orb_true_r.
Qed.

(** X1. With a counter below 9999999999 and an id not stored yet,
    [create_account] returns a new account object: balance zero, the next
    account number in ten digits, the id drawn and the id of the customer.
    The account is then found under its id, it is the last of the accounts
    found for its customer, the accounts stored under other ids are as
    before, and no transaction is recorded. *)
Theorem X1_create_account_opens (w : World) (c : Customer.t) (fresh : N) :
  (0 ≤ current_account_number (account_repository w) < max_account_number)%Z →
  accounts (account_repository w) !! fresh = None →
  let r := AccountService.create_account c fresh w in
  let l := length (heap w) in
  let a := Account.mk (Customer.customer_id c)
             (format_010d (current_account_number (account_repository w) + 1))
             0 fresh in
  fst r = inr l
  ∧ heap (snd r) = heap w ++ [a]
  ∧ String.length (Account.account_number a) = 10
  ∧ AccountRepository.find_account_by_id fresh (snd r) = (inr l, snd r)
  ∧ AccountRepository.find_accounts_by_customer_id (Customer.customer_id c) (snd r)
    = (inr (default [] (customer_accounts (account_repository w)
                          !! Customer.customer_id c) ++ [l]), snd r)
  ∧ balance_of (snd r) fresh = Some 0%Z
  ∧ (∀ id, id ≠ fresh →
       accounts (account_repository (snd r)) !! id
       = accounts (account_repository w) !! id)
  ∧ transaction_repository (snd r) = transaction_repository w.
Proof.
  intros Hn Hfresh. cbv zeta. rewrite create_account_eq. cbv zeta.
  rewrite post_init_format_010d by lia. rewrite Hfresh. simpl.
  split; [done|]. split; [done|]. split; [apply length_format_010d; lia|].
  split; [|split; [|split; [|split; [|done]]]].
  - unfold AccountRepository.find_account_by_id. unfold_M. simpl.
    by rewrite lookup_insert_eq.
  - unfold AccountRepository.find_accounts_by_customer_id. unfold_M. simpl.
    by rewrite lookup_insert_eq.
  - unfold balance_of. simpl. rewrite lookup_insert_eq. simpl.
    by rewrite lookup_app_r, Nat.sub_diag.
  - intros id Hid. by rewrite lookup_insert_ne.
Qed.

(** X2. A [create_account] call that raises raises on the account number
    or, the id being stored already, [DuplicateAccount]; it has used up
    one account number and has changed nothing else that can be observed:
    both indexes of the account repository, the transaction repository and
    every account object are as before. *)
Theorem X2_create_account_failure (w : World) (c : Customer.t) (fresh : N)
    (e : exn) :
  fst (AccountService.create_account c fresh w) = inl e →
  let w' := snd (AccountService.create_account c fresh w) in
  (e = ValueError "Account number must be 10 digits"
   ∨ e = DuplicateAccount ∧ is_Some (accounts (account_repository w) !! fresh))
  ∧ accounts (account_repository w') = accounts (account_repository w)
  ∧ customer_accounts (account_repository w')
    = customer_accounts (account_repository w)
  ∧ transaction_repository w' = transaction_repository w
  ∧ current_account_number (account_repository w')
    = (current_account_number (account_repository w) + 1)%Z
  ∧ ∀ l a, heap w !! l = Some a → heap w' !! l = Some a.
Proof.
  cbv zeta. rewrite create_account_eq. cbv zeta.
  destruct (Account.post_init _) as [e'|[]] eqn:Ep.
  - simpl. intros [= <-]. split; [|done]. left.
    unfold Account.post_init in Ep. by destruct (_ || _); simplify_eq.
  - destruct (accounts (account_repository w) !! fresh) eqn:Ef; [|done].
    simpl. intros [= <-]. split; [right; eauto|]. repeat split.
    intros l a Hl. by apply lookup_app_l_Some.
Qed.

(** X3. From a counter that is not negative, [create_account] raises on
    the account number exactly when the counter has reached 9999999999;
    it then stores nothing and only advances the counter, so that no later
    call can open an account either. *)
Theorem X3_create_account_exhausted (w : World) (c : Customer.t) (fresh : N) :
  (0 ≤ current_account_number (account_repository w))%Z →
  let r := AccountService.create_account c fresh w in
  (fst r = inl (ValueError "Account number must be 10 digits")
   ↔ (max_account_number ≤ current_account_number (account_repository w))%Z)
  ∧ ((max_account_number ≤ current_account_number (account_repository w))%Z →
     r = (inl (ValueError "Account number must be 10 digits"),
          set_current_account_number (λ n, n + 1)%Z w)).
Proof.
  intros Hn. cbv zeta. rewrite create_account_eq. cbv zeta.
  destruct (decide (max_account_number
                    ≤ current_account_number (account_repository w))%Z) as [Hmax|Hmax].
  - rewrite post_init_over by lia. done.
  - rewrite post_init_format_010d by lia.
    split; [|intros; lia]. split; [|intros; lia].
    by destruct (accounts (account_repository w) !! fresh).
Qed.

Lemma X1_witness :
  (0 ≤ current_account_number (account_repository init) < max_account_number)%Z
  ∧ accounts (account_repository init) !! 100%N = None
  ∧ fst (AccountService.create_account customer_A 100 init) = inr 0.
Proof.
  assert (0 ≤ current_account_number (account_repository init)
          < max_account_number)%Z as Hn
    by (unfold max_account_number; simpl; lia).
  assert (accounts (account_repository init) !! 100%N = None) as Hf
    by reflexivity.
  split; [exact Hn|]. split; [exact Hf|].
  apply (X1_create_account_opens init customer_A 100 Hn Hf).
Defined.

Lemma X2_witness :
  fst (AccountService.create_account customer_A 100 opened) = inl DuplicateAccount
  ∧ accounts (account_repository
                (snd (AccountService.create_account customer_A 100 opened)))
    = accounts (account_repository opened).
Proof.
  assert (fst (AccountService.create_account customer_A 100 opened)
          = inl DuplicateAccount) as He by (vm_compute; reflexivity).
  split; [exact He|].
  apply (X2_create_account_failure opened customer_A 100 DuplicateAccount He).
Defined.

Lemma X3_witness :
  (0 ≤ current_account_number (account_repository overrun))%Z
  ∧ (fst (AccountService.create_account customer_A 100 overrun)
     = inl (ValueError "Account number must be 10 digits")
     ↔ (max_account_number ≤ current_account_number (account_repository overrun))%Z).
Proof.
  assert (0 ≤ current_account_number (account_repository overrun))%Z as Hn
    by (simpl; lia).
  split; [exact Hn|].
  apply (X3_create_account_exhausted overrun customer_A 100 Hn).
Defined.

(** ** The accounts of a customer *)

Lemma customer_accounts_step (w : World) (o : Op) (c : N) :
  customer_accounts (account_repository (step w o)) !! c =
  match opened1 c o w with
  | None => customer_accounts (account_repository w) !! c
  | Some l => Some (default [] (customer_accounts (account_repository w) !! c)
                    ++ [l])
  end.
Proof.
  unfold step.
  destruct o as [cust fresh|l amount|l amount| |id amount ty now fresh];
    cbn [opened1 exec].
  - rewrite snd_then_ret, create_account_eq. cbv zeta.
    destruct (Account.post_init _); [by case_decide|].
    destruct (accounts (account_repository w) !! fresh); [by case_decide|].
    simpl. rewrite lookup_insert. by case_decide; subst.
  - unfold Account_deposit. by rewrite counter_call.
  - unfold Account_withdraw. by rewrite counter_call.
  - done.
  - by rewrite repository_make_transaction.
Qed.

Lemma customer_accounts_run (ops : list Op) (w : World) (c : N) :
  default [] (customer_accounts (account_repository (run ops w)) !! c)
  = default [] (customer_accounts (account_repository w) !! c)
    ++ opened_for c ops w.
Proof.
  revert w. induction ops as [|o ops IH]; intros w.
  { simpl. by rewrite app_nil_r. }
  rewrite run_cons, IH, customer_accounts_step. cbn [opened_for].
  destruct (opened1 c o w); simpl; [|done]. by rewrite <- app_assoc.
Qed.

(** X5. [find_accounts_by_customer_id] never raises and changes nothing.
    After a run it returns the accounts the customer had before, followed
    by the accounts that the [create_account] calls of the run opened for
    the customer, in the order of the calls; from the empty ledger these
    are all, and for a customer without account the answer is the empty
    list. *)
Theorem X5_accounts_of_customer (ops : list Op) (w : World) (c : N) :
  AccountRepository.find_accounts_by_customer_id c (run ops w)
  = (inr (default [] (customer_accounts (account_repository w) !! c)
          ++ opened_for c ops w), run ops w)
  ∧ AccountRepository.find_accounts_by_customer_id c (run ops init)
    = (inr (opened_for c ops init), run ops init)
  ∧ (customer_accounts (account_repository w) !! c = None →
     AccountRepository.find_accounts_by_customer_id c w = (inr [], w)).
Proof.
  unfold AccountRepository.find_accounts_by_customer_id. unfold_M.
  rewrite !customer_accounts_run. simpl. rewrite lookup_empty. simpl.
  split; [done|]. split; [done|]. by intros ->.
Qed.

(** ** The history is append-only *)

(** X9. Whatever a run does, from any state, the history of an account
    afterwards is its history before, followed by the records of the
    [make_transaction] calls on the account that completed, in the order
    of the calls: no record is ever removed, replaced or reordered. *)
Theorem X9_history_append_only (ops : list Op) (w : World) (id : N) :
  history (run ops w) id = history w id ++ completed id ops w.
Proof.
  unfold history at 1. rewrite transactions_run.
  destruct (completed id ops w); simpl; [|done].
  by rewrite app_nil_r.
Qed.

(** ** Saving twice *)

(** X11. After [save_account] was called on an account, whether it
    returned or raised, a second [save_account] of the same account
    raises [DuplicateAccount] and changes nothing: no account is ever
    stored twice. *)
Theorem X11_save_account_twice (w : World) (account : nat) (a : Account.t) :
  heap w !! account = Some a →
  let w1 := snd (AccountRepository.save_account account w) in
  AccountRepository.save_account account w1 = (inl DuplicateAccount, w1).
Proof.
  intros Ha. cbv zeta. rewrite (save_account_eq account w), Ha.
  destruct (accounts (account_repository w) !! Account.account_id a) eqn:E.
  - simpl. by rewrite save_account_eq, Ha, E.
  - simpl snd. rewrite save_account_eq. simpl. rewrite Ha.
    by rewrite lookup_insert_eq.
Qed.

Lemma X11_witness :
  heap unsaved !! 0 = Some (Account.mk 7 "0000000001" 0 100)
  ∧ AccountRepository.save_account 0
      (snd (AccountRepository.save_account 0 unsaved))
    = (inl DuplicateAccount, snd (AccountRepository.save_account 0 unsaved)).
Proof.
  assert (heap unsaved !! 0 = Some (Account.mk 7 "0000000001" 0 100)) as Ha
    by reflexivity.
  split; [exact Ha|]. apply (X11_save_account_twice unsaved 0 _ Ha).
Defined.

(** ** Deposit and withdrawal undo each other *)



(** ** What a step does to the objects and to the indexes *)

Lemma same_account_refl (a : Account.t) : same_account a a.
Proof. done. Qed.

Lemma same_account_trans (a b c : Account.t) :
  same_account a b → same_account b c → same_account a c.
Proof. unfold same_account. intros (?&?&?) (?&?&?). repeat split; congruence. Qed.

Lemma same_account_set_balance (a : Account.t) (b : Z) :
  same_account a (Account.set_balance b a).
Proof. done. Qed.

Lemma heap_call (method : Account.t → exn + Account.t) (l' : nat) (w : World)
    (l : nat) (a : Account.t) :
  (∀ x x', method x = inr x' → same_account x x') →
  heap w !! l = Some a →
  ∃ a', heap (snd (call method l' w)) !! l = Some a' ∧ same_account a a'.
Proof.
  intros Hm Hl. rewrite call_eq.
  destruct (heap w !! l') as [x|] eqn:El'; [|by exists a].
  destruct (method x) as [e|x'] eqn:Em; [by exists a|]. simpl.
  destruct (decide (l = l')) as [->|Hne].
  - exists x'. rewrite list_lookup_insert_eq by by eapply lookup_lt_Some.
    split; [done|]. replace a with x by congruence. by apply Hm.
  - exists a. by rewrite list_lookup_insert_ne.
Qed.

Lemma heap_step (w : World) (o : Op) (l : nat) (a : Account.t) :
  heap w !! l = Some a →
  ∃ a', heap (step w o) !! l = Some a' ∧ same_account a a'.
Proof.
  intros Hl. unfold step.
  destruct o as [c fresh|l' amount|l' amount| |id amount ty now fresh];
    simpl exec.
  - rewrite snd_then_ret, create_account_eq. cbv zeta.
    assert (∀ y, (heap w ++ [y]) !! l = Some a) as Hl'
      by (intros; by apply lookup_app_l_Some).
    destruct (Account.post_init _); [by exists a|].
    destruct (accounts (account_repository w) !! fresh); exists a; simpl;
      (split; [apply Hl'|done]).
  - apply heap_call; [|done]. intros x x' [_ ->]%deposit_inr. done.
  - apply heap_call; [|done]. intros x x' [_ ->]%withdraw_inr. done.
  - by exists a.
  - rewrite make_transaction_eq. destruct (amount <? 0)%Z; [by exists a|].
    destruct (accounts (account_repository w) !! id) as [l'|]; [|by exists a].
    destruct (heap w !! l') as [x|] eqn:El'; [|by exists a].
    destruct (apply_type ty x amount) as [e|x'] eqn:Ea; [by exists a|].
    apply apply_type_inr in Ea as (b & -> & _). simpl.
    destruct (decide (l = l')) as [->|Hne].
    + eexists. rewrite list_lookup_insert_eq by by eapply lookup_lt_Some.
      split; [done|]. by replace a with x by congruence.
    + exists a. by rewrite list_lookup_insert_ne.
Qed.

Lemma heap_run (ops : list Op) (w : World) (l : nat) (a : Account.t) :
  heap w !! l = Some a →
  ∃ a', heap (run ops w) !! l = Some a' ∧ same_account a a'.
Proof.
  revert w a. induction ops as [|o ops IH]; intros w a Hl; [by exists a|].
  rewrite run_cons. destruct (heap_step w o l a Hl) as (a1 & H1 & Hs1).
  destruct (IH _ _ H1) as (a2 & H2 & Hs2). exists a2. split; [done|].
  by eapply same_account_trans.
Qed.

(** A step leaves both indexes alone, or it is a [create_account] call
    that stores a new object under an id not stored before. *)
Lemma indexes_step (w : World) (o : Op) :
  (accounts (account_repository (step w o)) = accounts (account_repository w)
   ∧ customer_accounts (account_repository (step w o))
     = customer_accounts (account_repository w))
  ∨ (∃ c fresh a,
       o = CreateAccount c fresh
       ∧ accounts (account_repository w) !! fresh = None
       ∧ Account.account_id a = fresh
       ∧ Account.customer_id a = Customer.customer_id c
       ∧ Account.balance a = 0%Z
       ∧ Account.account_number a
         = format_010d (current_account_number (account_repository w) + 1)
       ∧ Account.post_init a = inr tt
       ∧ heap (step w o) = heap w ++ [a]
       ∧ transaction_repository (step w o) = transaction_repository w
       ∧ accounts (account_repository (step w o))
         = <[fresh := length (heap w)]> (accounts (account_repository w))
       ∧ customer_accounts (account_repository (step w o))
         = <[Customer.customer_id c :=
               default [] (customer_accounts (account_repository w)
                             !! Customer.customer_id c) ++ [length (heap w)]]>
             (customer_accounts (account_repository w))).
Proof.
  unfold step.
  destruct o as [c fresh|l' amount|l' amount| |id amount ty now fresh];
    simpl exec.
  - rewrite snd_then_ret, create_account_eq. cbv zeta.
    destruct (Account.post_init _) as [e|[]] eqn:Ep; [by left|].
    destruct (accounts (account_repository w) !! fresh) eqn:Ef; [by left|].
    right. eexists c, fresh, _. by repeat split.
  - left. unfold Account_deposit. by rewrite counter_call.
  - left. unfold Account_withdraw. by rewrite counter_call.
  - by left.
  - left. by rewrite repository_make_transaction.
Qed.

Lemma accounts_step (w : World) (o : Op) (id : N) (l : nat) :
  accounts (account_repository w) !! id = Some l →
  accounts (account_repository (step w o)) !! id = Some l.
Proof.
  intros Hid. destruct (indexes_step w o) as [[-> _]|H]; [done|].
  destruct H as (c & fresh & a & _ & Hf & _ & _ & _ & _ & _ & _ & _ & -> & _).
  rewrite lookup_insert_ne; [done|]. congruence.
Qed.

Lemma accounts_run (ops : list Op) (w : World) (id : N) (l : nat) :
  accounts (account_repository w) !! id = Some l →
  accounts (account_repository (run ops w)) !! id = Some l.
Proof.
  revert w. induction ops as [|o ops IH]; intros w Hid; [done|].
  rewrite run_cons. by apply IH, accounts_step.
Qed.

(** X10. Along any run an account stays stored under its id, behind the
    same reference, and the object keeps its id, its customer and its
    account number: a run changes balances only, and never removes or
    replaces an account. *)
Theorem X10_accounts_are_permanent (ops : list Op) (w : World) (id : N)
    (l : nat) (a : Account.t) :
  accounts (account_repository w) !! id = Some l →
  heap w !! l = Some a →
  AccountRepository.find_account_by_id id (run ops w) = (inr l, run ops w)
  ∧ ∃ a', heap (run ops w) !! l = Some a'
          ∧ Account.account_id a' = Account.account_id a
          ∧ Account.customer_id a' = Account.customer_id a
          ∧ Account.account_number a' = Account.account_number a.
Proof.
  intros Hid Hl. split.
  - unfold AccountRepository.find_account_by_id. unfold_M.
    by rewrite (accounts_run ops w id l Hid).
  - destruct (heap_run ops w l a Hl) as (a' & Ha' & Hs). by exists a'.
Qed.

Lemma X10_witness :
  accounts (account_repository opened) !! 100%N = Some 0
  ∧ heap opened !! 0 = Some (Account.mk 7 "0000000001" 0 100)
  ∧ AccountRepository.find_account_by_id 100 (run scenario opened)
    = (inr 0, run scenario opened).
Proof.
  assert (accounts (account_repository opened) !! 100%N = Some 0) as Hid
    by (vm_compute; reflexivity).
  assert (heap opened !! 0 = Some (Account.mk 7 "0000000001" 0 100)) as Hl
    by (vm_compute; reflexivity).
  split; [exact Hid|]. split; [exact Hl|].
  apply (X10_accounts_are_permanent scenario opened 100 0 _ Hid Hl).
Defined.

(** ** The two indexes agree *)

Lemma listed_step (w : World) (o : Op) : wf w → listed w → listed (step w o).
Proof.
  intros [Hwf _] Hls id l a' Hid Hl.
  destruct (indexes_step w o) as [[Eacc Eca]|H].
  - rewrite Eacc in Hid. rewrite Eca.
    destruct (Hwf id l Hid) as (a & Ha & _).
    destruct (heap_step w o l a Ha) as (a'' & Ha'' & _ & Hc & _).
    replace a' with a'' by congruence. rewrite Hc. by eapply Hls.
  - destruct H as (c & fresh & x & _ & Hf & Hxid & Hxc & _ & _ & _ & Hheap & _
                   & Eacc & Eca).
    rewrite Eacc in Hid. rewrite Eca. rewrite Hheap in Hl.
    apply lookup_insert_Some in Hid as [[<- <-]|[Hne Hid]].
    + rewrite lookup_app_r, Nat.sub_diag in Hl by done. simpl in Hl.
      replace a' with x by congruence. rewrite Hxc, lookup_insert_eq.
      eexists. split; [done|]. apply elem_of_app. right. by left.
    + destruct (Hwf id l Hid) as (a & Ha & _).
      rewrite (lookup_app_l_Some _ _ _ _ Ha) in Hl.
      replace a' with a by congruence.
      destruct (Hls id l a Hid Ha) as (ls & Hc & Hin).
      rewrite lookup_insert. case_decide as Hcid.
      * eexists. split; [done|]. rewrite Hcid, Hc. simpl.
        apply elem_of_app. by left.
      * by exists ls.
Qed.

Lemma listed_run (ops : list Op) (w : World) :
  wf w → listed w → listed (run ops w).
Proof.
  revert w. induction ops as [|o ops IH]; intros w Hwf Hls; [done|].
  rewrite run_cons. apply IH; [by apply wf_step|by apply listed_step].
Qed.

Lemma listed_init : listed init.
Proof. intros id l a. simpl. by rewrite lookup_empty. Qed.

(** X4. In every state that a run reaches from the empty ledger the two
    indexes of the account repository agree.  The account found under an
    id carries that id and is among the accounts found for its customer;
    an account found for a customer belongs to that customer and is the
    one found under its own id; and [find_account_by_id] raises [KeyError]
    exactly for the ids that are not stored, changing nothing. *)
Theorem X4_indexes_agree (ops : list Op) :
  let w := run ops init in
  (∀ id l, AccountRepository.find_account_by_id id w = (inr l, w) →
     ∃ a ls, heap w !! l = Some a ∧ Account.account_id a = id
             ∧ AccountRepository.find_accounts_by_customer_id
                 (Account.customer_id a) w = (inr ls, w)
             ∧ l ∈ ls)
  ∧ (∀ c ls l,
       AccountRepository.find_accounts_by_customer_id c w = (inr ls, w) →
       l ∈ ls →
       ∃ a, heap w !! l = Some a ∧ Account.customer_id a = c
            ∧ AccountRepository.find_account_by_id (Account.account_id a) w
              = (inr l, w))
  ∧ (∀ id, AccountRepository.find_account_by_id id w = (inl (KeyError id), w)
           ↔ accounts (account_repository w) !! id = None).
Proof.
  cbv zeta. pose proof (wf_reachable ops) as [Hwf1 Hwf2].
  pose proof (listed_run ops init wf_init listed_init) as Hls.
  unfold AccountRepository.find_account_by_id,
    AccountRepository.find_accounts_by_customer_id. unfold_M.
  split; [|split].
  - intros id l Hfind.
    destruct (accounts (account_repository (run ops init)) !! id) as [l'|] eqn:E;
      [|done].
    injection Hfind as ->.
    destruct (Hwf1 id l E) as (a & Ha & Hid).
    destruct (Hls id l a E Ha) as (ls & Hc & Hin).
    exists a, ls. rewrite Hc. done.
  - intros c ls l [= <-] Hin.
    destruct (customer_accounts (account_repository (run ops init)) !! c)
      as [ls|] eqn:E; simpl in Hin; [|by apply elem_of_nil in Hin].
    destruct (Hwf2 c ls l E Hin) as (a & Ha & Hc & Hacc).
    exists a. by rewrite Hacc.
  - intros id.
    by destruct (accounts (account_repository (run ops init)) !! id).
Qed.

(** ** The account numbers in the ledger *)

Lemma numbers_insert (h : list Account.t) (l : nat) (a a' : Account.t) :
  h !! l = Some a → Account.account_number a' = Account.account_number a →
  Account.account_number <$> <[l := a']> h = Account.account_number <$> h.
Proof.
  intros Hl Hn. rewrite list_fmap_insert. apply list_insert_id.
  by rewrite list_lookup_fmap, Hl, Hn.
Qed.

Lemma numbers_call (method : Account.t → exn + Account.t) (l : nat) (w : World) :
  (∀ x x', method x = inr x' → same_account x x') →
  Account.account_number <$> heap (snd (call method l w))
  = Account.account_number <$> heap w.
Proof.
  intros Hm. rewrite call_eq. destruct (heap w !! l) as [x|] eqn:El; [|done].
  destruct (method x) as [e|x'] eqn:Em; [done|]. simpl.
  apply (numbers_insert _ _ x); [done|]. by apply Hm.
Qed.

Lemma numbers_step (w : World) (o : Op) :
  (Account.account_number <$> heap (step w o)
   = Account.account_number <$> heap w
   ∧ (current_account_number (account_repository w)
      ≤ current_account_number (account_repository (step w o)))%Z)
  ∨ (∃ a, heap (step w o) = heap w ++ [a]
          ∧ Account.account_number a
            = format_010d (current_account_number (account_repository w) + 1)
          ∧ Account.post_init a = inr tt
          ∧ current_account_number (account_repository (step w o))
            = (current_account_number (account_repository w) + 1)%Z).
Proof.
  unfold step.
  destruct o as [c fresh|l amount|l amount| |id amount ty now fresh];
    simpl exec.
  - rewrite snd_then_ret, create_account_eq. cbv zeta.
    destruct (Account.post_init _) as [e|[]] eqn:Ep.
    + left. simpl. split; [done|lia].
    + right. eexists.
      destruct (accounts (account_repository w) !! fresh); simpl; done.
  - left. unfold Account_deposit. rewrite counter_call. split; [|lia].
    apply numbers_call. by intros x x' [_ ->]%deposit_inr.
  - left. unfold Account_withdraw. rewrite counter_call. split; [|lia].
    apply numbers_call. by intros x x' [_ ->]%withdraw_inr.
  - left. simpl. split; [done|lia].
  - left. rewrite repository_make_transaction. split; [|lia].
    rewrite make_transaction_eq. destruct (amount <? 0)%Z; [done|].
    destruct (accounts (account_repository w) !! id) as [l|]; [|done].
    destruct (heap w !! l) as [x|] eqn:El; [|done].
    destruct (apply_type ty x amount) as [e|x'] eqn:Ea; [done|].
    apply apply_type_inr in Ea as (b & -> & _). simpl.
    by apply (numbers_insert _ _ x).
Qed.

Lemma post_init_length (a : Account.t) :
  Account.post_init a = inr tt → String.length (Account.account_number a) = 10.
Proof.
  unfold Account.post_init.
  destruct (Nat.eqb_spec (String.length (Account.account_number a)) 10);
    [done|]. by rewrite orb_true_r.
Qed.

Lemma StronglySorted_snoc (ns : list Z) (m : Z) :
  StronglySorted Z.lt ns → Forall (λ k, k < m)%Z ns →
  StronglySorted Z.lt (ns ++ [m]).
Proof.
  induction 1 as [|k ns Hs IH Hk]; intros Hm; simpl.
  - repeat constructor.
  - apply Forall_cons in Hm as [Hkm Hm]. constructor; [by apply IH|].
    apply Forall_app. split; [done|]. by constructor.
Qed.

Lemma numbered_step (w : World) (o : Op) : numbered w → numbered (step w o).
Proof.
  intros (Hn & ns & Hns & Hsorted & Hbound & Hlen).
  destruct (numbers_step w o) as [[Hsame Hle]|(a & Hheap & Hnum & Hpost & Hc)].
  - split; [lia|]. exists ns. rewrite Hsame.
    split; [done|]. split; [done|]. split.
    + eapply Forall_impl; [exact Hbound|]. intros m Hm. simpl in Hm. lia.
    + apply (Forall_fmap Account.account_number (λ s, String.length s = 10)).
      rewrite Hsame.
      by apply (Forall_fmap Account.account_number (λ s, String.length s = 10)).
  - split; [lia|].
    exists (ns ++ [current_account_number (account_repository w) + 1])%Z.
    rewrite Hheap, Hc, !fmap_app. simpl. rewrite Hns, Hnum.
    split; [done|]. split; [|split].
    + apply StronglySorted_snoc; [done|].
      eapply Forall_impl; [exact Hbound|]. intros m Hm. simpl in Hm. lia.
    + apply Forall_app. split.
      * eapply Forall_impl; [exact Hbound|]. intros m Hm. simpl in Hm. lia.
      * constructor; [lia|constructor].
    + apply Forall_app. split; [done|]. constructor; [|constructor].
      by apply post_init_length.
Qed.

Lemma numbered_run (ops : list Op) (w : World) : numbered w → numbered (run ops w).
Proof.
  revert w. induction ops as [|o ops IH]; intros w Hw; [done|].
  rewrite run_cons. by apply IH, numbered_step.
Qed.

Lemma numbered_init : numbered init.
Proof.
  split; [simpl; lia|]. exists []. simpl. repeat split; constructor.
Qed.

Lemma StronglySorted_lt_NoDup (ns : list Z) : StronglySorted Z.lt ns → NoDup ns.
Proof.
  induction 1 as [|k ns Hs IH Hk]; constructor; [|done].
  intros Hin. rewrite Forall_forall in Hk. specialize (Hk k Hin). lia.
Qed.

(** X6. In every state that a run reaches from the empty ledger, every
    account object has an account number of exactly ten ASCII digits, no
    two account objects have the same account number, and so two accounts
    stored under different ids have different account numbers. *)
Theorem X6_account_numbers_unique (ops : list Op) :
  let w := run ops init in
  NoDup (Account.account_number <$> heap w)
  ∧ Forall (λ a, String.length (Account.account_number a) = 10
                 ∧ str_all ascii_digit (Account.account_number a) = true)
      (heap w)
  ∧ ∀ id1 id2 l1 l2 a1 a2,
      id1 ≠ id2 →
      accounts (account_repository w) !! id1 = Some l1 →
      accounts (account_repository w) !! id2 = Some l2 →
      heap w !! l1 = Some a1 → heap w !! l2 = Some a2 →
      Account.account_number a1 ≠ Account.account_number a2.
Proof.
  cbv zeta.
  destruct (numbered_run ops init numbered_init)
    as (Hn & ns & Hns & Hsorted & Hbound & Hlen).
  pose proof (wf_reachable ops) as [Hwf _].
  assert (NoDup (Account.account_number <$> heap (run ops init))) as Hnodup.
  { rewrite Hns. apply NoDup_fmap_2_strong; [|by apply StronglySorted_lt_NoDup].
    intros x y Hx Hy. rewrite Forall_forall in Hbound.
    apply format_010d_inj.
    - apply Hbound in Hx. lia.
    - apply Hbound in Hy. lia. }
  split; [done|]. split.
  - apply Forall_and. split; [done|].
    apply (Forall_fmap Account.account_number
             (λ s, str_all ascii_digit s = true)).
    rewrite Hns. apply Forall_fmap.
    eapply Forall_impl; [exact Hbound|]. intros m Hm. simpl in Hm |- *.
    apply str_all_format_010d. lia.
  - intros id1 id2 l1 l2 a1 a2 Hne H1 H2 Ha1 Ha2 Heq.
    destruct (Hwf id1 l1 H1) as (b1 & Hb1 & Hid1).
    destruct (Hwf id2 l2 H2) as (b2 & Hb2 & Hid2).
    assert (l1 = l2) as ->.
    { eapply (NoDup_lookup _ l1 l2); [exact Hnodup| |].
      - by rewrite list_lookup_fmap, Ha1.
      - by rewrite list_lookup_fmap, Ha2, Heq. }
    congruence.
Qed.

(** ** What is filed in the transaction repository *)

Lemma completed1_Some (id : N) (o : Op) (w : World) (r : TransactionRecord.t) :
  completed1 id o w = Some r →
  TransactionRecord.account_id r = id
  ∧ is_Some (accounts (account_repository w) !! id).
Proof.
  destruct o as [| | | |id0 amount ty now fresh]; try done. cbn [completed1 exec].
  case_decide as Hid; [|done]. subst id0. rewrite make_transaction_eq.
  destruct (amount <? 0)%Z; [done|].
  destruct (accounts (account_repository w) !! id) as [l|]; [|done].
  destruct (heap w !! l) as [a|]; [|done].
  destruct (apply_type ty a amount) as [e|a']; [done|].
  simpl. intros [= <-]. split; [done|]. by eexists.
Qed.

Lemma filed_step (w : World) (o : Op) : filed w → filed (step w o).
Proof.
  intros Hw id rs. rewrite transactions_step.
  destruct (completed1 id o w) as [r|] eqn:E.
  - intros [= <-]. apply completed1_Some in E as [Hr [l Hl]].
    split; [by destruct (history w id)|]. split.
    + apply Forall_app. split; [|by repeat constructor].
      unfold history.
      destruct (transactions (transaction_repository w) !! id) as [rs|] eqn:Et;
        simpl; [by apply (Hw id rs Et)|constructor].
    + exists l. by apply accounts_step.
  - intros Hrs. destruct (Hw id rs Hrs) as (Hne & Hall & [l Hl]).
    split; [done|]. split; [done|]. exists l. by apply accounts_step.
Qed.

Lemma filed_run (ops : list Op) (w : World) : filed w → filed (run ops w).
Proof.
  revert w. induction ops as [|o ops IH]; intros w Hw; [done|].
  rewrite run_cons. by apply IH, filed_step.
Qed.

Lemma filed_init : filed init.
Proof. intros id rs. simpl. by rewrite lookup_empty. Qed.

(** X8. After any run from the empty ledger, a list that
    [get_transactions] returns is never empty and belongs to an account
    that [find_account_by_id] finds; each of its records carries the id
    asked for and an amount that is not negative, and a strictly positive
    one when the record is a withdrawal. *)
Theorem X8_recorded_transactions (ops : list Op) (id : N)
    (rs : list TransactionRecord.t) :
  fst (TransactionRepository.get_transactions id (run ops init)) = inr rs →
  rs ≠ []
  ∧ (∃ l, AccountRepository.find_account_by_id id (run ops init)
          = (inr l, run ops init))
  ∧ Forall (λ r, TransactionRecord.account_id r = id
                 ∧ (0 ≤ TransactionRecord.amount r)%Z
                 ∧ (TransactionRecord.type r = WITHDRAW →
                    (0 < TransactionRecord.amount r)%Z)) rs.
Proof.
  rewrite get_transactions_eq.
  destruct (transactions (transaction_repository (run ops init)) !! id)
    as [rs'|] eqn:E; [|done].
  simpl. intros [= ->].
  destruct (filed_run ops init filed_init id rs E) as (Hne & Hall & [l Hl]).
  split; [done|]. split.
  - exists l. unfold AccountRepository.find_account_by_id. unfold_M.
    by rewrite Hl.
  - apply Forall_and. split; [done|]. apply Forall_forall. intros r Hr.
    by apply (amounts_recorded_run ops init amounts_recorded_init id rs r).
Qed.

Lemma X8_witness :
  fst (TransactionRepository.get_transactions 100 (run service_run init))
  = inr [TransactionRecord.mk 100 5000 DEPOSIT 1 201;
         TransactionRecord.mk 100 500 WITHDRAW 2 202]
  ∧ [TransactionRecord.mk 100 5000 DEPOSIT 1 201;
     TransactionRecord.mk 100 500 WITHDRAW 2 202] ≠ [].
Proof.
  assert (fst (TransactionRepository.get_transactions 100 (run service_run init))
          = inr [TransactionRecord.mk 100 5000 DEPOSIT 1 201;
                 TransactionRecord.mk 100 500 WITHDRAW 2 202]) as H
    by (vm_compute; reflexivity).
  split; [exact H|]. apply (X8_recorded_transactions service_run 100 _ H).
Defined.

(** ** The balance is the sum of the history *)








(** ** Transactions on different accounts are independent *)

(** X13. On a well-formed ledger two [make_transaction] calls on
    different accounts commute: made in either order they return or raise
    the same, each as it would alone, and they leave the same state. *)
Theorem X13_make_transaction_commute (w : World) (id1 id2 : N) (x1 x2 : Z)
    (t1 t2 : TransactionType) (n1 n2 : Z) (f1 f2 : N) :
  wf w → id1 ≠ id2 →
  let m1 := TransactionService.make_transaction id1 x1 t1 n1 f1 in
  let m2 := TransactionService.make_transaction id2 x2 t2 n2 f2 in
  snd (m2 (snd (m1 w))) = snd (m1 (snd (m2 w)))
  ∧ fst (m1 (snd (m2 w))) = fst (m1 w)
  ∧ fst (m2 (snd (m1 w))) = fst (m2 w).
Proof.
  intros [Hwf _] Hne. cbv zeta.
  assert (∀ l1 l2, accounts (account_repository w) !! id1 = Some l1 →
            accounts (account_repository w) !! id2 = Some l2 → l1 ≠ l2) as Hl.
  { intros l1 l2 H1 H2 ->. destruct (Hwf id1 l2 H1) as (a & Ha & Hi).
    destruct (Hwf id2 l2 H2) as (b & Hb & Hj). congruence. }
  rewrite (make_transaction_eq id1 x1 t1 n1 f1 w),
    (make_transaction_eq id2 x2 t2 n2 f2 w).
  destruct (x1 <? 0)%Z eqn:E1, (x2 <? 0)%Z eqn:E2;
    destruct (accounts (account_repository w) !! id1) as [l1|] eqn:Eid1,
      (accounts (account_repository w) !! id2) as [l2|] eqn:Eid2;
    try (destruct (heap w !! l1) as [a1|] eqn:Ea1);
    try (destruct (heap w !! l2) as [a2|] eqn:Ea2);
    try (destruct (apply_type t1 a1 x1) as [e1|a1'] eqn:Ep1);
    try (destruct (apply_type t2 a2 x2) as [e2|a2'] eqn:Ep2);
    simpl; rewrite ?make_transaction_eq; simpl;
    rewrite ?E1, ?E2, ?Eid1, ?Eid2; simpl;
    try (specialize (Hl l1 l2 eq_refl eq_refl));
    rewrite ?list_lookup_insert_ne by done;
    rewrite ?Ea1, ?Ea2, ?Ep1, ?Ep2; simpl; try done.
  split; [|done]. unfold set_transactions, set_heap. simpl.
  rewrite !lookup_insert_ne by done.
  f_equal; [by apply list_insert_insert_ne|]. f_equal.
  apply insert_insert_ne. congruence.
Qed.

Lemma X13_witness :
  wf two_accounts ∧ 100%N ≠ 101%N
  ∧ snd (TransactionService.make_transaction 101 70 DEPOSIT 2 202
           (snd (TransactionService.make_transaction 100 5000 DEPOSIT 1 201
                   two_accounts)))
    = snd (TransactionService.make_transaction 100 5000 DEPOSIT 1 201
             (snd (TransactionService.make_transaction 101 70 DEPOSIT 2 202
                     two_accounts))).
Proof.
  assert (wf two_accounts) as Hwf by exact (wf_run _ init wf_init).
  assert (100%N ≠ 101%N) as Hne by discriminate.
  split; [exact Hwf|]. split; [exact Hne|].
  apply (X13_make_transaction_commute two_accounts 100 101 5000 70
           DEPOSIT DEPOSIT 1 2 201 202 Hwf Hne).
Defined.

(** ** Calls on an account object, and the outcomes of a transaction *)




